(** * A shallow embedding of the on-demand HLS servers of SpaceXe-tech/hls

    The repository holds four near-duplicate Express servers:
    - [src/index.js]: multi-quality, [getVideoFormats(videoId, forceRefresh)]
      and a [runFFmpeg] that re-resolves expired URLs;
    - [src/unnamed/part_000]: a batch pre-conversion server followed by a
      single-quality on-demand server ([getVideoUrl], 1800 s margin);
    - [src/unnamed/part_001]: single-quality on-demand server with input
      validation;
    - [src/unnamed/part_002]: multi-quality server whose [getVideoFormats]
      refreshes when any cached URL is expired.

    JavaScript values are modelled as follows: strings as [string] (code
    units below 256), a value that may be [undefined] as an [option],
    media durations as rationals [Q] (the exact value of the double the
    API returns), [Date.now()] and timestamps as [Z] milliseconds,
    [parseInt] results as [jsnum] (an integer or [NaN]). Effects of a
    request handler (the [node-cache] store, the calls to the resolution
    API, the spawned [ffmpeg] processes) are threaded through a small
    state-and-error monad. *)

From Stdlib Require Import ZArith QArith Qround Qminmax Lia Lqa.
From Stdlib Require Import String Ascii List.
From stdpp Require Import base gmap strings.

Import ListNotations.
Open Scope string_scope.

(** stdpp's [strings] blocks [simpl] on [String.append]; the proofs below
    compute with it. *)
Arguments String.append : simpl nomatch.

(* ================================================================== *)
(** ** JavaScript string and number primitives *)
(* ================================================================== *)

Module JS.

(** [c] is in [0-9]. *)
Definition is_digit (c : ascii) : bool :=
  let n := nat_of_ascii c in (48 <=? n)%nat && (n <=? 57)%nat.

(** Longest prefix of decimal digits (the greedy [\d+] / [parseInt] scan). *)
Fixpoint digits_prefix (s : string) : string :=
  match s with
  | EmptyString => EmptyString
  | String c s' => if is_digit c then String c (digits_prefix s') else EmptyString
  end.

(** Value of a string of decimal digits. *)
Fixpoint digits_value_aux (s : string) (acc : Z) : Z :=
  match s with
  | EmptyString => acc
  | String c s' => digits_value_aux s' (acc * 10 + (Z.of_nat (nat_of_ascii c) - 48))
  end.

Definition digits_value (s : string) : Z := digits_value_aux s 0.

(** A JavaScript number as far as this code needs it: [NaN] or an integer.
    The integer is exact; a double holds it exactly when its magnitude is
    at most [2^53], the range of every number these servers compute from
    a request (segment indices, [index * 10], durations in whole seconds). *)
Inductive jsnum := NaN | Fin (z : Z).

(** The white space that [parseInt] skips ([StrWhiteSpaceChar]), as far as
    code units below 256 go: TAB, LF, VT, FF, CR, SP and NBSP (U+00A0). *)
Definition is_js_space (c : ascii) : bool :=
  let n := nat_of_ascii c in
  ((9 <=? n) && (n <=? 13) || (n =? 32) || (n =? 160))%nat.

(** [parseInt(s, 10)]: leading white space, optional sign, then the longest
    run of digits; [NaN] when there is no digit. The value is the exact
    integer of the digits (JavaScript rounds it to a double, which only
    differs beyond [2^53]). *)
Fixpoint skip_ws (s : string) : string :=
  match s with
  | String c s' => if is_js_space c then skip_ws s' else s
  | EmptyString => EmptyString
  end.

Definition parse_unsigned (s : string) : jsnum :=
  match digits_prefix s with
  | EmptyString => NaN
  | d => Fin (digits_value d)
  end.

Definition parseInt (s : string) : jsnum :=
  match skip_ws s with
  | String "-" s' => match parse_unsigned s' with NaN => NaN | Fin z => Fin (- z) end
  | String "+" s' => parse_unsigned s'
  | s' => parse_unsigned s'
  end.

(** [x * k] on numbers. *)
Definition mul (x : jsnum) (k : Z) : jsnum :=
  match x with NaN => NaN | Fin z => Fin (z * k) end.

(** Decimal rendering of a non-negative integer, [fuel] bounding its digits. *)
Fixpoint digits_aux (fuel : nat) (n : Z) (acc : string) : string :=
  match fuel with
  | O => acc
  | S f =>
      let acc' := String (ascii_of_nat (48 + Z.to_nat (n mod 10))) acc in
      if (n <? 10)%Z then acc' else digits_aux f (n / 10) acc'
  end.

(** [String(z)] / [z.toString()] for an integer [z]: its exact decimal
    digits, which is what JavaScript prints for [|z| <= 2^53] (above, it
    prints the shortest digits that round-trip, and from [10^21] on the
    exponent form). *)
Definition Z_to_string (z : Z) : string :=
  let a := Z.abs z in
  let s := digits_aux (S (Z.to_nat (Z.log2 a))) a EmptyString in
  if (z <? 0)%Z then "-" ++ s else s.

(** [x.toString()] for a number. *)
Definition num_to_string (x : jsnum) : string :=
  match x with NaN => "NaN" | Fin z => Z_to_string z end.

(** [x.toFixed(3)] for [|x| < 10^21]: the integer [n] with [n/1000 - |x|]
    closest to zero (the larger one on a tie), the sign put back in front.
    JavaScript applies this rule to the exact value of its double, which is
    what [x] stands for (so the double written [1.0005], slightly below
    it, gives [1.000]). *)
Definition pad3 (s : string) : string :=
  match String.length s with
  | 1%nat => "00" ++ s
  | 2%nat => "0" ++ s
  | _ => s
  end.

Definition toFixed3 (x : Q) : string :=
  let a := (if Qlt_le_dec x 0 then - x else x)%Q in
  let n := Qfloor (a * 1000 + (1 # 2))%Q in
  (if Qlt_le_dec x 0 then "-" else "")
    ++ Z_to_string (n / 1000)%Z ++ "." ++ pad3 (Z_to_string (n mod 1000)%Z).

(** [String(x)] for a string or [undefined] (how [spawn] turns each
    argument into a C string). *)
Definition js_str (x : option string) : string :=
  match x with Some s => s | None => "undefined" end.

(** [s.startsWith(p)], returning the rest of [s]. *)
Fixpoint strip_prefix (p s : string) : option string :=
  match p, s with
  | EmptyString, _ => Some s
  | String a p', String b s' => if Ascii.eqb a b then strip_prefix p' s' else None
  | String _ _, EmptyString => None
  end.

(** [s.includes(q)]. *)
Fixpoint includes (s q : string) : bool :=
  match strip_prefix q s with
  | Some _ => true
  | None => match s with EmptyString => false | String _ s' => includes s' q end
  end.

(** [s.replace(p, r)] with a string pattern: only the first occurrence. *)
Fixpoint replace_first (p r s : string) : string :=
  match strip_prefix p s with
  | Some rest => r ++ rest
  | None => match s with
            | EmptyString => EmptyString
            | String c s' => String c (replace_first p r s')
            end
  end.

End JS.

(* ================================================================== *)
(** ** Data model and effects *)
(* ================================================================== *)

Module Model.
Import JS.

(** One entry of [formats], as built by [fetchYouTubeData]:
    [{ type, quality, extension, url }]; [url] is [item.url], a string or
    [undefined] ([None]). *)
Record Format := mkFormat {
  ftype : string;
  quality : string;
  extension : string;
  url : option string
}.

(** The object returned by [fetchYouTubeData]. *)
Record Media := mkMedia {
  title : string;
  thumbnail : string;
  duration : Q;
  formats : list Format
}.

(** A spawned [ffmpeg] process, recorded with its argument vector. *)
Record Proc := mkProc { pargs : list string }.

(** The observable state of one server: its [node-cache] store (value and
    absolute expiry instant [t] in ms), the log of calls to the resolution
    API (the [url] parameter of each), the spawned processes and the clock
    [Date.now()]. *)
Record World (V : Type) := mkWorld {
  cache : gmap string (V * Z);
  calls : list string;
  spawned : list Proc;
  now : Z
}.
Arguments mkWorld {V}.
Arguments cache {V}.
Arguments calls {V}.
Arguments spawned {V}.
Arguments now {V}.

(** An [async] function: it either returns or throws an [Error(message)]. *)
Inductive result (A : Type) := Ok (a : A) | Err (msg : string).
Arguments Ok {A}.
Arguments Err {A}.

Definition M (V A : Type) := World V -> result A * World V.

Definition ret {V A} (a : A) : M V A := fun w => (Ok a, w).
Definition throw {V A} (msg : string) : M V A := fun w => (Err msg, w).
Definition bind {V A B} (m : M V A) (k : A -> M V B) : M V B :=
  fun w => match m w with
           | (Ok a, w') => k a w'
           | (Err e, w') => (Err e, w')
           end.

Notation "x <- c ;; k" := (bind c (fun x => k))
  (at level 100, c at next level, right associativity).

Definition get_now {V} : M V Z := fun w => (Ok (now w), w).

(** [new NodeCache({ stdTTL })]: [set] stores the value with expiry
    [Date.now() + stdTTL * 1000]; [get] returns it while
    [Date.now() <= t] and otherwise deletes it and returns [undefined]. *)
Definition cache_set {V} (stdTTL : Z) (key : string) (v : V) : M V unit :=
  fun w => (Ok tt, mkWorld (<[key := (v, now w + stdTTL * 1000)%Z]> (cache w))
                            (calls w) (spawned w) (now w)).

Definition cache_get {V} (key : string) : M V (option V) :=
  fun w => match cache w !! key with
           | Some (v, t) =>
               if (now w <=? t)%Z then (Ok (Some v), w)
               else (Ok None, mkWorld (delete key (cache w)) (calls w) (spawned w) (now w))
           | None => (Ok None, w)
           end.

(** [spawn(cmd, args)]. *)
Definition spawn {V} (args : list string) : M V unit :=
  fun w => (Ok tt, mkWorld (cache w) (calls w) (spawned w ++ [mkProc args]) (now w)).

(** The resolution API, i.e. the [try] block of [fetchYouTubeData]: the
    [n]-th call (counting from 0) with parameter [url] answers [Ok data]
    (the mapped payload) or [Err msg], [msg] being the [message] of what
    the block threw (an [axios] error, or [Invalid response from API] for
    a payload without [data], [items] or [title]). *)
Definition Upstream := nat -> string -> result Media.

(** [fetchYouTubeData(url)] (one attempt, as in the on-demand servers):
    [catch (err) { throw new Error(`API request failed: ${err.message}`) }]. *)
Definition fetchYouTubeData {V} (up : Upstream) (u : string) : M V Media :=
  fun w =>
    let w' := mkWorld (cache w) (calls w ++ [u]) (spawned w) (now w) in
    match up (length (calls w)) u with
    | Ok d => (Ok d, w')
    | Err m => (Err ("API request failed: " ++ m), w')
    end.

(** [videoId.match(/^[a-zA-Z0-9_-]{11}$/)]. *)
Definition is_id_char (c : ascii) : bool :=
  let n := nat_of_ascii c in
  (((48 <=? n) && (n <=? 57)) || ((65 <=? n) && (n <=? 90))
   || ((97 <=? n) && (n <=? 122)) || (n =? 95) || (n =? 45))%nat.

Fixpoint all_id_chars (s : string) : bool :=
  match s with
  | EmptyString => true
  | String c s' => is_id_char c && all_id_chars s'
  end.

Definition valid_id (s : string) : bool :=
  (String.length s =? 11)%nat && all_id_chars s.

Definition watch_url (videoId : string) : string :=
  "https://www.youtube.com/watch?v=" ++ videoId.

(** [isUrlExpired(url)] with a safety margin of [margin] ms, for a string
    [url]: the regular expression [/expire=(\d+)/] finds the leftmost
    [expire=] followed by at least one digit and captures the greedy run
    of digits. *)
Fixpoint find_expire (s : string) : option string :=
  match s with
  | EmptyString => None
  | String _ rest =>
      match strip_prefix "expire=" s with
      | Some t => match digits_prefix t with
                  | EmptyString => find_expire rest
                  | d => Some d
                  end
      | None => find_expire rest
      end
  end.

(** [url] contains [expire=] immediately followed by a decimal digit. *)
Definition has_expire (u : string) : Prop :=
  exists p c r, is_digit c = true /\ u = p ++ "expire=" ++ String c r.

Definition isUrlExpired_m (margin : Z) (now : Z) (u : string) : bool :=
  match find_expire u with
  | None => true
  | Some d => (digits_value d * 1000 - margin <=? now)%Z
  end.

(** The four variants: [src/index.js] l.55-60, [part_000] l.306-311,
    [part_001] l.53-58 and [part_002] l.55-60. *)
Definition margin_index : Z := 300000.
Definition margin_part000 : Z := 1800000.
Definition margin_part001 : Z := 300000.
Definition margin_part002 : Z := 300000.

(** The message of the [TypeError] thrown by [url.match(...)] when [url]
    is [undefined]. *)
Definition undefined_match : string := "Cannot read properties of undefined (reading 'match')".

(** The call [isUrlExpired(x)] on a string or [undefined] value [x]. *)
Definition check_expired {V} (isExpired : string -> bool) (x : option string) : M V bool :=
  match x with
  | Some u => ret (isExpired u)
  | None => throw undefined_match
  end.

(** [formats.find((f) => f.quality.includes(q) && f.type === 'video_with_audio')] *)
Definition matches_quality (q : string) (f : Format) : bool :=
  includes (quality f) q && String.eqb (ftype f) "video_with_audio".

Definition find_quality (q : string) (fs : list Format) : option Format :=
  List.find (matches_quality q) fs.

(** [formats.find((f) => f.type === 'video_with_audio')] *)
Definition find_combined (fs : list Format) : option Format :=
  List.find (fun f => String.eqb (ftype f) "video_with_audio") fs.

(** [formats.find((f) => f.type === 'audio')] *)
Definition find_audio (fs : list Format) : option Format :=
  List.find (fun f => String.eqb (ftype f) "audio") fs.

(** [formats.filter((f) => f.url)]: a non-empty string URL. *)
Definition has_url (f : Format) : bool :=
  match url f with
  | Some s => negb (String.eqb s "")
  | None => false
  end.

Definition valid_formats (fs : list Format) : list Format :=
  List.filter has_url fs.

Definition with_formats (d : Media) (fs : list Format) : Media :=
  mkMedia (title d) (thumbnail d) (duration d) fs.

(** Express 4 binds the pattern [segment:segNum_:quality.ts] with
    path-to-regexp 0.1: a parameter name is [\w+], so the names are
    [segNum_] and [quality], each matched by the lazy group [([^\/]+?)].
    On the text [seg] between [segment] and [.ts] the first group takes one
    character and the second the rest; [seg] with fewer than two characters
    or with a [/] does not match. So [req.params] is
    [{ videoId, segNum_, quality }], and [req.params.segNum] is
    [undefined]. *)
Definition segment_params (seg : string) : option (string * string) :=
  if includes seg "/" then None else
  match seg with
  | String c (String d r) => Some (String c EmptyString, String d r)
  | _ => None
  end.

End Model.
(* ================================================================== *)
(** ** Manifest text, shared by the on-demand servers *)
(* ================================================================== *)

Module Manifest.
Import JS Model.

Definition nl : string := String (ascii_of_nat 10) EmptyString.
Definition dq : string := String (ascii_of_nat 34) EmptyString.

(** [Math.ceil(duration / segmentDuration)], the bound of the
    [for (let i = 0; i < numSegments; i++)] loop. *)
Definition numSegments (duration : Q) (segmentDuration : Z) : Z :=
  Qceiling (duration / inject_Z segmentDuration).

(** [Math.min(segmentDuration, duration - i * segmentDuration)] *)
Definition segDur (duration : Q) (segmentDuration : Z) (i : nat) : Q :=
  Qmin (inject_Z segmentDuration) (duration - inject_Z (Z.of_nat i * segmentDuration)).

(** The segments the loop appends, as [(declared duration, URI)]. *)
Definition segments (duration : Q) (segmentDuration : Z) (uri : nat -> string)
  : list (Q * string) :=
  map (fun i => (segDur duration segmentDuration i, uri i))
      (seq 0 (Z.to_nat (numSegments duration segmentDuration))).

(** [a + b + ...] on strings. *)
Definition concat_all (l : list string) : string := fold_right String.append "" l.

Definition playlist_header (segmentDuration : Z) : string :=
  "#EXTM3U" ++ nl ++ "#EXT-X-VERSION:3" ++ nl
  ++ "#EXT-X-TARGETDURATION:" ++ Z_to_string segmentDuration ++ nl
  ++ "#EXT-X-MEDIA-SEQUENCE:0" ++ nl ++ "#EXT-X-PLAYLIST-TYPE:VOD" ++ nl.

Definition extinf (e : Q * string) : string :=
  "#EXTINF:" ++ toFixed3 (fst e) ++ "," ++ nl ++ snd e ++ nl.

Definition playlist (segmentDuration : Z) (segs : list (Q * string)) : string :=
  playlist_header segmentDuration ++ concat_all (map extinf segs)
  ++ "#EXT-X-ENDLIST" ++ nl.

(** Segment URIs of the variant, audio and single-quality playlists. *)
Definition variant_uri (videoId quality : string) (i : nat) : string :=
  "/stream/" ++ videoId ++ "/segment" ++ Z_to_string (Z.of_nat i) ++ "_" ++ quality ++ ".ts".
Definition audio_uri (videoId : string) (i : nat) : string :=
  "/stream/" ++ videoId ++ "/asegment" ++ Z_to_string (Z.of_nat i) ++ ".aac".
Definition single_uri (videoId : string) (i : nat) : string :=
  "/stream/" ++ videoId ++ "/segment" ++ Z_to_string (Z.of_nat i) ++ ".ts".

(** The master manifest of [src/index.js] l.146-167 and [part_002]
    l.89-112. *)
Definition videoQualities : list string := ["360p"; "480p"; "720p"; "1080p"].

Definition bandwidth (q : string) : Z :=
  if String.eqb q "360p" then 800000
  else if String.eqb q "480p" then 1400000
  else if String.eqb q "720p" then 2800000
  else if String.eqb q "1080p" then 5000000
  else 1000000.

(** [${q.replace('p','')}x${parseInt(q)}] *)
Definition resolution (q : string) : string :=
  replace_first "p" "" q ++ "x" ++ num_to_string (parseInt q).

Definition stream_inf (videoId q : string) : string :=
  "#EXT-X-STREAM-INF:BANDWIDTH=" ++ Z_to_string (bandwidth q)
  ++ ",RESOLUTION=" ++ resolution q
  ++ ",CODECS=" ++ dq ++ "avc1.42e01e,mp4a.40.2" ++ dq ++ ",AUDIO=" ++ dq ++ "audio" ++ dq ++ nl
  ++ "/stream/" ++ videoId ++ "/" ++ q ++ ".m3u8" ++ nl.

Definition master_header (videoId : string) : string :=
  "#EXTM3U" ++ nl ++ "#EXT-X-VERSION:3" ++ nl
  ++ "#EXT-X-MEDIA:TYPE=AUDIO,GROUP-ID=" ++ dq ++ "audio" ++ dq
  ++ ",NAME=" ++ dq ++ "English" ++ dq ++ ",DEFAULT=YES,AUTOSELECT=YES,URI="
  ++ dq ++ "/stream/" ++ videoId ++ "/audio.m3u8" ++ dq ++ nl.

(** [for (const q of videoQualities) { const f = ...; if (!f) continue; ... }] *)
Fixpoint master_loop (videoId : string) (fs : list Format) (qs : list string) : string :=
  match qs with
  | [] => ""
  | q :: qs' =>
      match find_quality q fs with
      | None => ""
      | Some _ => stream_inf videoId q
      end ++ master_loop videoId fs qs'
  end.

Definition master (videoId : string) (fs : list Format) : string :=
  master_header videoId ++ master_loop videoId fs videoQualities.

End Manifest.


(** What a route handler sends back. *)
Inductive response :=
  | Manifest_ (body : string)             (* [res.send(manifest)] *)
  | Streamed (content_type : string)      (* [ffmpeg.stdout.pipe(res)] *)
  | InfoJson (u : option string) (t : string) (d : Q)  (* [res.json(data)] *)
  | JsonError (status : Z) (msg : string). (* [res.status(s).json({ error })] *)

(** [try { ... } catch (err) { res.status(500).json({ error: err.message }); }] *)
Definition catch500 {V} (m : Model.M V response) : Model.M V response :=
  fun w => match m w with
           | (Model.Ok r, w') => (Model.Ok r, w')
           | (Model.Err e, w') => (Model.Ok (JsonError 500 e), w')
           end.

(* ================================================================== *)
(** ** [src/index.js]: multi-quality on-demand server *)
(* ================================================================== *)

Module IndexJs.
Import JS Model Manifest.

Definition stdTTL : Z := 18000.

Definition isUrlExpired (now : Z) (u : string) : bool := isUrlExpired_m margin_index now u.

(** [getVideoFormats(videoId, forceRefresh = false)], l.62-81. *)
Definition getVideoFormats (up : Upstream) (videoId : string) (forceRefresh : bool)
  : M Media Media :=
  if negb (valid_id videoId) then throw "Invalid YouTube video ID" else
  let cacheKey := videoId ++ "_formats" in
  cached <- (if forceRefresh then ret None else cache_get cacheKey) ;;
  match cached with
  | Some c => ret c
  | None =>
      data <- fetchYouTubeData up (watch_url videoId) ;;
      let validFormats := valid_formats (formats data) in
      _ <- cache_set stdTTL cacheKey (with_formats data validFormats) ;;
      ret (with_formats data validFormats)
  end.

(** [refreshed.formats.find((f) => f.quality === format.quality && f.type === format.type)] *)
Definition same_format (format f : Format) : bool :=
  String.eqb (quality f) (quality format) && String.eqb (ftype f) (ftype format).

Definition ffmpeg_args (u : string) (startTime : jsnum) (duration : Z) (isAudio : bool)
  : list string :=
  let baseArgs := ["-hide_banner"; "-loglevel"; "error";
                   "-ss"; num_to_string startTime; "-t"; Z_to_string duration;
                   "-i"; u; "-reconnect"; "1"; "-reconnect_streamed"; "1";
                   "-reconnect_delay_max"; "5"] in
  if isAudio then baseArgs ++ ["-c:a"; "aac"; "-vn"; "-f"; "adts"; "pipe:1"]
  else baseArgs ++ ["-c:v"; "libx264"; "-preset"; "veryfast"; "-c:a"; "aac";
                    "-f"; "mpegts"; "pipe:1"].

(** [runFFmpeg(videoId, format, startTime, duration, res, isAudio)], l.86-136,
    up to the [spawn] (the event wiring is in [Lifecycle]); [spawn] turns
    the argument [format.url] into a string. *)
Definition runFFmpeg (up : Upstream) (videoId : string) (format : Format)
    (startTime : jsnum) (duration : Z) (isAudio : bool) : M Media unit :=
  t <- get_now ;;
  expired <- check_expired (isUrlExpired t) (url format) ;;
  format' <- (if expired then
                refreshed <- getVideoFormats up videoId true ;;
                match List.find (same_format format) (formats refreshed) with
                | Some freshFormat => ret freshFormat
                | None => ret format
                end
              else ret format) ;;
  spawn (ffmpeg_args (js_str (url format')) startTime duration isAudio).

(** [GET /stream/:videoId/master.m3u8], l.141-177. *)
Definition master_route (up : Upstream) (videoId : string) : M Media response :=
  catch500 (data <- getVideoFormats up videoId false ;;
            ret (Manifest_ (master videoId (formats data)))).

(** [GET /stream/:videoId/:quality.m3u8], l.182-215. *)
Definition variant_route (up : Upstream) (videoId quality : string) : M Media response :=
  catch500 (
    data <- getVideoFormats up videoId false ;;
    match find_quality quality (formats data) with
    | None => throw "Format not available"
    | Some _ =>
        ret (Manifest_ (playlist 10 (segments (duration data) 10 (variant_uri videoId quality))))
    end).

(** [GET /stream/:videoId/audio.m3u8], l.220-253. *)
Definition audio_route (up : Upstream) (videoId : string) : M Media response :=
  catch500 (
    data <- getVideoFormats up videoId false ;;
    match find_audio (formats data) with
    | None => throw "Audio format not available"
    | Some _ =>
        ret (Manifest_ (playlist 10 (segments (duration data) 10 (audio_uri videoId))))
    end).

(** The handler of [GET /stream/:videoId/segment:segNum_:quality.ts],
    l.258-274, given [req.params.segNum] ([None]: [undefined]) and
    [req.params.quality]. *)
Definition segment_route (up : Upstream) (videoId : string) (segNum : option string)
    (quality : string) : M Media response :=
  catch500 (
    let segIndex := parseInt (js_str segNum) in
    data <- getVideoFormats up videoId false ;;
    match find_quality quality (formats data) with
    | None => throw "Format not available"
    | Some format =>
        let segDuration := 10%Z in
        let startTime := mul segIndex segDuration in
        _ <- runFFmpeg up videoId format startTime segDuration false ;;
        ret (Streamed "video/mp2t")
    end).

(** A request [GET /stream/:videoId/segment<seg>.ts]: Express binds the
    parameters by [segment_params] and calls the handler with
    [segNum] undefined; [None] when the route does not match. *)
Definition segment_request (up : Upstream) (videoId seg : string)
  : option (M Media response) :=
  match segment_params seg with
  | Some (_, quality) => Some (segment_route up videoId None quality)
  | None => None
  end.

(** [GET /stream/:videoId/asegment:segNum.aac], l.276-292. *)
Definition asegment_route (up : Upstream) (videoId segNum : string) : M Media response :=
  catch500 (
    let segIndex := parseInt segNum in
    data <- getVideoFormats up videoId false ;;
    match find_audio (formats data) with
    | None => throw "Audio format not available"
    | Some format =>
        let segDuration := 10%Z in
        let startTime := mul segIndex segDuration in
        _ <- runFFmpeg up videoId format startTime segDuration true ;;
        ret (Streamed "audio/aac")
    end).

End IndexJs.

(* ================================================================== *)
(** ** Single-quality servers: [part_000] (second server) and [part_001] *)
(* ================================================================== *)

Module Single.
Import JS Model Manifest.

(** The cached value [{ url, title, duration }]. *)
Record UrlInfo := mkUrlInfo { iurl : option string; ititle : string; iduration : Q }.

Definition stdTTL : Z := 18000.

(** [formats.find(quality match) || formats.find(video_with_audio)] *)
Definition select_format (q : string) (fs : list Format) : option Format :=
  match find_quality q fs with
  | Some f => Some f
  | None => find_combined fs
  end.

(** [getVideoUrl(videoId, quality = '720p')]: [part_001] l.61-92 checks the
    identifier ([validate = true], margin 300 s); [part_000] l.314-341 does
    not ([validate = false], margin 1800 s). *)
Definition getVideoUrl_gen (validate : bool) (margin : Z) (up : Upstream)
    (videoId quality : string) : M UrlInfo UrlInfo :=
  if validate && negb (valid_id videoId) then throw "Invalid YouTube video ID" else
  let cacheKey := videoId ++ "_" ++ quality in
  cached <- cache_get cacheKey ;;
  t <- get_now ;;
  let fetch :=
    (data <- fetchYouTubeData up (watch_url videoId) ;;
     match select_format quality (formats data) with
     | None => throw "No suitable format found"
     | Some format =>
         let result := mkUrlInfo (url format) (title data) (duration data) in
         _ <- cache_set stdTTL cacheKey result ;;
         ret result
     end) in
  match cached with
  | Some c =>
      expired <- check_expired (isUrlExpired_m margin t) (iurl c) ;;
      if negb expired then ret c else fetch
  | None => fetch
  end.

Definition single_ffmpeg_args_000 (u : string) (startTime : jsnum) : list string :=
  ["-ss"; num_to_string startTime; "-i"; u; "-t"; "10"; "-c:v"; "copy";
   "-c:a"; "aac"; "-b:a"; "128k"; "-f"; "mpegts"; "-avoid_negative_ts"; "make_zero";
   "pipe:1"].

Definition single_ffmpeg_args_001 (u : string) (startTime : jsnum) : list string :=
  ["-i"; u; "-ss"; num_to_string startTime; "-t"; "10"; "-c:v"; "copy";
   "-c:a"; "copy"; "-f"; "mpegts"; "pipe:"].

End Single.

Module Part000.
Import JS Model Manifest Single.

Definition getVideoUrl (up : Upstream) (videoId quality : string) : M UrlInfo UrlInfo :=
  getVideoUrl_gen false margin_part000 up videoId quality.

(** [GET /stream/:videoId/master.m3u8], l.344-380. *)
Definition master_route (up : Upstream) (videoId : string) : M UrlInfo response :=
  catch500 (videoData <- getVideoUrl up videoId "720p" ;;
            ret (Manifest_ (playlist 10 (segments (iduration videoData) 10 (single_uri videoId))))).

(** [GET /stream/:videoId/segment:segNum.ts], l.383-441, up to the [spawn]. *)
Definition segment_route (up : Upstream) (videoId segNum : string) : M UrlInfo response :=
  catch500 (
    let segmentIndex := parseInt segNum in
    let startTime := mul segmentIndex 10 in
    videoData <- getVideoUrl up videoId "720p" ;;
    _ <- spawn (single_ffmpeg_args_000 (js_str (iurl videoData)) startTime) ;;
    ret (Streamed "video/mp2t")).

(** [GET /api/info/:videoId], l.444-453. *)
Definition info_route (up : Upstream) (videoId : string) : M UrlInfo response :=
  catch500 (data <- getVideoUrl up videoId "720p" ;;
            ret (InfoJson (iurl data) (ititle data) (iduration data))).

End Part000.

Module Part001.
Import JS Model Manifest Single.

Definition getVideoUrl (up : Upstream) (videoId quality : string) : M UrlInfo UrlInfo :=
  getVideoUrl_gen true margin_part001 up videoId quality.

(** [GET /stream/:videoId/master.m3u8], l.95-136. *)
Definition master_route (up : Upstream) (videoId : string) : M UrlInfo response :=
  catch500 (
    if negb (valid_id videoId) then throw "Invalid YouTube video ID" else
    videoData <- getVideoUrl up videoId "720p" ;;
    ret (Manifest_ (playlist 10 (segments (iduration videoData) 10 (single_uri videoId))))).

(** [GET /stream/:videoId/segment:segNum.ts], l.139-245, up to the [spawn]. *)
Definition segment_route (up : Upstream) (videoId segNum : string) : M UrlInfo response :=
  catch500 (
    let segmentIndex := parseInt segNum in
    match segmentIndex with
    | NaN => throw "Invalid segment number"
    | Fin z => if (z <? 0)%Z then throw "Invalid segment number" else
        if negb (valid_id videoId) then throw "Invalid YouTube video ID" else
        let startTime := mul segmentIndex 10 in
        videoData <- getVideoUrl up videoId "720p" ;;
        _ <- spawn (single_ffmpeg_args_001 (js_str (iurl videoData)) startTime) ;;
        ret (Streamed "video/mp2t")
    end).

(** [GET /api/info/:videoId], l.248-262. *)
Definition info_route (up : Upstream) (videoId : string) : M UrlInfo response :=
  catch500 (
    if negb (valid_id videoId) then throw "Invalid YouTube video ID" else
    data <- getVideoUrl up videoId "720p" ;;
    ret (InfoJson (iurl data) (ititle data) (iduration data))).

End Part001.

(* ================================================================== *)
(** ** [part_002]: multi-quality server refreshing on any expired URL *)
(* ================================================================== *)

Module Part002.
Import JS Model Manifest.

Definition stdTTL : Z := 18000.

Definition isUrlExpired (now : Z) (u : string) : bool := isUrlExpired_m margin_part002 now u.

(** [formats.some(f => isUrlExpired(f.url))]: stops at the first [true],
    and throws at a format without [url] met before it. *)
Fixpoint some_expired {V} (t : Z) (fs : list Format) : M V bool :=
  match fs with
  | [] => ret false
  | f :: fs' =>
      e <- check_expired (isUrlExpired t) (url f) ;;
      if e then ret true else some_expired t fs'
  end.

(** [getVideoFormats(videoId)], l.62-80. *)
Definition getVideoFormats (up : Upstream) (videoId : string) : M Media Media :=
  if negb (valid_id videoId) then throw "Invalid YouTube video ID" else
  let cacheKey := videoId ++ "_formats" in
  cached <- cache_get cacheKey ;;
  t <- get_now ;;
  let refresh :=
    (data <- fetchYouTubeData up (watch_url videoId) ;;
     let validFormats := valid_formats (formats data) in
     let c := with_formats data validFormats in
     _ <- cache_set stdTTL cacheKey c ;;
     ret c) in
  match cached with
  | None => refresh
  | Some c =>
      stale <- some_expired t (formats c) ;;
      if stale then refresh else ret c
  end.

(** [runFFmpeg(url, startTime, duration, res, isAudio)], l.210-243, up to
    the [spawn]. *)
Definition ffmpeg_args (u : string) (startTime : jsnum) (duration : Z) (isAudio : bool)
  : list string :=
  let headers := "User-Agent: Mozilla/5.0 (Windows NT 10.0; Win64; x64) AppleWebKit/537.36 Chrome/118 Safari/537.36"
                 ++ String (ascii_of_nat 13) nl ++ "Referer: https://www.youtube.com/"
                 ++ String (ascii_of_nat 13) nl ++ "Origin: https://www.youtube.com/" in
  let baseArgs := ["-ss"; num_to_string startTime; "-t"; Z_to_string duration;
                   "-headers"; headers; "-i"; u] in
  if isAudio then baseArgs ++ ["-c:a"; "aac"; "-vn"; "-f"; "adts"; "pipe:1"]
  else baseArgs ++ ["-c:v"; "libx264"; "-preset"; "veryfast"; "-c:a"; "aac";
                    "-f"; "mpegts"; "pipe:1"].

Definition runFFmpeg (u : option string) (startTime : jsnum) (duration : Z) (isAudio : bool)
  : M Media unit :=
  spawn (ffmpeg_args (js_str u) startTime duration isAudio).

(** [GET /stream/:videoId/master.m3u8], l.85-123. *)
Definition master_route (up : Upstream) (videoId : string) : M Media response :=
  catch500 (data <- getVideoFormats up videoId ;;
            ret (Manifest_ (master videoId (formats data)))).

(** [GET /stream/:videoId/:quality.m3u8], l.128-164. *)
Definition variant_route (up : Upstream) (videoId quality : string) : M Media response :=
  catch500 (
    data <- getVideoFormats up videoId ;;
    match find_quality quality (formats data) with
    | None => throw "Format not available"
    | Some _ =>
        ret (Manifest_ (playlist 10 (segments (duration data) 10 (variant_uri videoId quality))))
    end).

(** The handler of [GET /stream/:videoId/segment:segNum_:quality.ts],
    l.246-263, given [req.params.segNum] and [req.params.quality]. *)
Definition segment_route (up : Upstream) (videoId : string) (segNum : option string)
    (quality : string) : M Media response :=
  catch500 (
    let segIndex := parseInt (js_str segNum) in
    data <- getVideoFormats up videoId ;;
    match find_quality quality (formats data) with
    | None => throw "Format not available"
    | Some format =>
        let startTime := mul segIndex 10 in
        _ <- runFFmpeg (url format) startTime 10 false ;;
        ret (Streamed "video/mp2t")
    end).

(** A request [GET /stream/:videoId/segment<seg>.ts], bound as in
    [src/index.js]. *)
Definition segment_request (up : Upstream) (videoId seg : string)
  : option (M Media response) :=
  match segment_params seg with
  | Some (_, quality) => Some (segment_route up videoId None quality)
  | None => None
  end.

(** [GET /stream/:videoId/audio.m3u8], l.169-205. *)
Definition audio_route (up : Upstream) (videoId : string) : M Media response :=
  catch500 (
    data <- getVideoFormats up videoId ;;
    match find_audio (formats data) with
    | None => throw "Audio format not available"
    | Some _ =>
        ret (Manifest_ (playlist 10 (segments (duration data) 10 (audio_uri videoId))))
    end).

(** [GET /stream/:videoId/asegment:segNum.aac], l.266-283. *)
Definition asegment_route (up : Upstream) (videoId segNum : string) : M Media response :=
  catch500 (
    let segIndex := parseInt segNum in
    data <- getVideoFormats up videoId ;;
    match find_audio (formats data) with
    | None => throw "Audio format not available"
    | Some format =>
        let startTime := mul segIndex 10 in
        _ <- runFFmpeg (url format) startTime 10 true ;;
        ret (Streamed "audio/aac")
    end).

End Part002.

(* ================================================================== *)
(** ** [part_000], first server: batch conversion to HLS files *)
(* ================================================================== *)

(** The first server of [part_000] (l.1-261) downloads a whole video with
    [fluent-ffmpeg] into [hls-content/<videoId>/] and serves the files. Its
    state is the [node-cache] store of metadata (stdTTL 24 h), the calls to
    the resolution API, the conversions started (logged as processes
    [[String(videoUrl); videoDir]]) and the set of directories holding a
    [master.m3u8]. *)
Module Batch.
Import JS Model.

(** The cached value [{ title, thumbnail, duration }]. *)
Record Meta := mkMeta { mtitle : string; mthumbnail : string; mduration : Q }.

Definition stdTTL : Z := 86400.

(** [fetchYouTubeData(url, retries = 3, delay = 1000)], l.32-71: the loop
    [for (let i = 0; i < retries; i++)], [k] being the attempts left
    ([retries - i]). A failed attempt rethrows as
    [API request failed: <message>] when [i === retries - 1] and otherwise
    waits [delay] ms (time is not modelled); falling off the loop (only
    when [retries = 0]) returns [undefined] ([None]). *)
Fixpoint fetch_loop (up : Upstream) (u : string) (retries i k : nat) : M Meta (option Media) :=
  match k with
  | O => ret None
  | S k' => fun w =>
      let w' := mkWorld (cache w) (calls w ++ [u]) (spawned w) (now w) in
      match up (length (calls w)) u with
      | Ok d => (Ok (Some d), w')
      | Err m =>
          if (i =? retries - 1)%nat
          then (Err ("API request failed: " ++ m), w')
          else fetch_loop up u retries (S i) k' w'
      end
  end.

Definition fetchYouTubeData (up : Upstream) (u : string) (retries : nat) : M Meta (option Media) :=
  fetch_loop up u retries 0 retries.

(** [youtubeUrl.match(/[?&]v=([^&]+)/)]: the leftmost [?] or [&] followed
    by [v=] and at least one character other than [&]; the capture is the
    greedy run of such characters. *)
Fixpoint non_amp_prefix (s : string) : string :=
  match s with
  | EmptyString => EmptyString
  | String c s' => if Ascii.eqb c "&" then EmptyString else String c (non_amp_prefix s')
  end.

Fixpoint match_v (s : string) : option string :=
  match s with
  | EmptyString => None
  | String c rest =>
      let here :=
        if Ascii.eqb c "?" || Ascii.eqb c "&" then
          match strip_prefix "v=" rest with
          | Some t => match non_amp_prefix t with
                      | EmptyString => None
                      | v => Some v
                      end
          | None => None
          end
        else None in
      match here with
      | Some v => Some v
      | None => match_v rest
      end
  end.

(** An absolute file-system path, as its list of components, [[]] being
    the root [/]. *)
Definition Path := list string.

(** [s.split('/')] *)
Fixpoint split_slash (s : string) : list string :=
  match s with
  | EmptyString => [EmptyString]
  | String c s' =>
      if Ascii.eqb c "/" then EmptyString :: split_slash s'
      else match split_slash s' with
           | x :: xs => String c x :: xs
           | [] => [String c EmptyString]
           end
  end.

(** Normalisation of [path.join(dir, ...)] on the components added to an
    absolute [dir]: empty and [.] components vanish, [..] drops the last
    component (not above the root). *)
Fixpoint join_components (dir : Path) (cs : list string) : Path :=
  match cs with
  | [] => dir
  | c :: cs' =>
      if String.eqb c "" || String.eqb c "." then join_components dir cs'
      else if String.eqb c ".." then join_components (removelast dir) cs'
      else join_components (dir ++ [c])%list cs'
  end.

(** [path.join(base, v)] for an absolute [base]. *)
Definition path_join (base : Path) (v : string) : Path :=
  join_components base (split_slash v).

(** The path as a string. *)
Definition path_str (p : Path) : string := "/" ++ String.concat "/" p.

(** The state of the batch server: the shared [World] and the directories
    whose [master.m3u8] exists. *)
Record BWorld := mkBWorld { bw : World Meta; outputs : gset Path }.

Definition BM (A : Type) := BWorld -> result A * BWorld.

Definition bret {A} (a : A) : BM A := fun s => (Ok a, s).
Definition bthrow {A} (msg : string) : BM A := fun s => (Err msg, s).
Definition bbind {A B} (m : BM A) (k : A -> BM B) : BM B :=
  fun s => match m s with
           | (Ok a, s') => k a s'
           | (Err e, s') => (Err e, s')
           end.
Definition lift {A} (m : M Meta A) : BM A :=
  fun s => match m (bw s) with (r, w') => (r, mkBWorld w' (outputs s)) end.

Notation "x <~ c ;; k" := (bbind c (fun x => k))
  (at level 100, c at next level, right associativity).

(** What the batch server sends back. *)
Inductive bresponse :=
  | ProcessJson (videoId streamUrl : string) (cached : bool) (m : Meta)
  | InfoMeta (m : Meta)
  | ManifestFile (dir : Path)
  | BError (status : Z) (msg : string).

(** [errorHandler], l.26-29, reached through [next(error)]. *)
Definition catch_internal (m : BM bresponse) : BM bresponse :=
  fun s => match m s with
           | (Ok r, s') => (Ok r, s')
           | (Err _, s') => (Ok (BError 500 "Internal server error"), s')
           end.

Definition stream_url (videoId : string) : string :=
  "/stream/" ++ videoId ++ "/master.m3u8".

(** [ffmpeg(videoUrl)...run()] on a string or [undefined] input ends with
    ['end'] ([None]) or ['error'] with a message ([Some msg]). *)
Definition Transcoder := option string -> option string.

Section Server.
(** [path.join(HLS_DIR, videoId)] *)
Variable videoDir : string -> Path.

(** [convertToHLS(videoUrl, videoId, quality)], l.74-121: nothing to do
    when [master.m3u8] exists; otherwise one conversion. On failure,
    [fs.remove(videoDir)] deletes the directory with everything below it,
    so every [master.m3u8] under it; the removal is not awaited, and is
    modelled as done when the request fails. *)
Definition convertToHLS (tr : Transcoder) (videoUrl : option string) (videoId : string)
  : BM unit :=
  fun s =>
    let dir := videoDir videoId in
    if decide (dir ∈ outputs s) then (Ok tt, s) else
    let w := bw s in
    let w1 := mkWorld (cache w) (calls w)
                (spawned w ++ [mkProc [js_str videoUrl; path_str dir]]) (now w) in
    match tr videoUrl with
    | None => (Ok tt, mkBWorld w1 ({[dir]} ∪ outputs s))
    | Some msg =>
        (Err ("HLS conversion failed: " ++ msg),
         mkBWorld w1 (filter (fun o => ¬ (dir `prefix_of` o)) (outputs s)))
    end.

(** [POST /api/process], l.124-185, with [req.body.youtubeUrl] and
    [req.body.quality] ([None] when absent). *)
Definition process_route (up : Upstream) (tr : Transcoder)
    (youtubeUrl quality : option string) : BM bresponse :=
  catch_internal (
    let quality := match quality with Some q => q | None => "720p" end in
    match youtubeUrl with
    | None | Some EmptyString => bret (BError 400 "YouTube URL is required")
    | Some u =>
        match match_v u with
        | None => bret (BError 400 "Invalid YouTube URL")
        | Some videoId =>
            cachedData <~ lift (cache_get videoId) ;;
            match cachedData with
            | Some m => bret (ProcessJson videoId (stream_url videoId) true m)
            | None =>
                videoData <~ lift (fetchYouTubeData up u 3) ;;
                match videoData with
                | None => bthrow "Cannot read properties of undefined (reading 'formats')"
                | Some d =>
                    match Single.select_format quality (formats d) with
                    | None => bret (BError 404 "No suitable video format found")
                    | Some format =>
                        _ <~ convertToHLS tr (url format) videoId ;;
                        let m := mkMeta (title d) (thumbnail d) (duration d) in
                        _ <~ lift (cache_set stdTTL videoId m) ;;
                        bret (ProcessJson videoId (stream_url videoId) false m)
                    end
                end
            end
        end
    end).

(** [GET /stream/:videoId/master.m3u8], l.188-208. *)
Definition master_route (videoId : string) : BM bresponse :=
  catch_internal (fun s =>
    if decide (videoDir videoId ∈ outputs s)
    then (Ok (ManifestFile (videoDir videoId)), s)
    else (Ok (BError 404 "Video not found"), s)).

End Server.

(** [GET /api/info/:videoId], l.233-245. *)
Definition info_route (videoId : string) : BM bresponse :=
  catch_internal (
    cachedData <~ lift (cache_get videoId) ;;
    match cachedData with
    | Some m => bret (InfoMeta m)
    | None => bret (BError 404 "Video info not found")
    end).

End Batch.

(* ================================================================== *)
(** ** The payload check of [fetchYouTubeData] *)
(* ================================================================== *)

(** All four files build the result of [fetchYouTubeData] the same way
    ([src/index.js] l.31-47, [part_000] l.50-65 and l.284-299, [part_001]
    l.31-47, [part_002] l.31-47): [res.data?.data] must have truthy
    [items] and [title], and each item is mapped field by field. A
    missing string field is [None]; [""] is falsy as well. *)
Module Payload.
Import JS Model.

Record Item := mkItem {
  itype : string;
  ilabel : option string;
  iext : option string;
  iextension : option string;
  iurl : option string
}.

Record Data := mkData {
  ptitle : option string;
  pthumbnail : string;
  pduration : Q;
  pitems : option (list Item)
}.

(** [x || d] for a string-valued [x]. *)
Definition js_or (x : option string) (d : string) : string :=
  match x with
  | Some s => if String.eqb s "" then d else s
  | None => d
  end.

(** [(item) => ({ type, quality: item.label || 'unknown',
    extension: item.ext || item.extension || 'unknown', url })] *)
Definition to_format (item : Item) : Format :=
  mkFormat (itype item) (js_or (ilabel item) "unknown")
           (js_or (iext item) (js_or (iextension item) "unknown")) (iurl item).

(** [if (!data || !data.items || !data.title) throw ...; return {...}] *)
Definition to_media (data : option Data) : option Media :=
  match data with
  | None => None
  | Some p =>
      match pitems p, ptitle p with
      | Some items, Some t =>
          if String.eqb t "" then None
          else Some (mkMedia t (pthumbnail p) (pduration p) (map to_format items))
      | _, _ => None
      end
  end.

End Payload.

(* ================================================================== *)
(** ** Lifetime of the transcoding process of one segment request *)
(* ================================================================== *)

(** A segment handler runs synchronously between the points where it waits
    for network I/O (the [await] of a call to the resolution API). Node
    delivers the client's ['close'] event only at such a point, or after
    the handler has finished; an [EventEmitter] listener added after the
    event was emitted is never called for it. *)
Module Lifecycle.

Inductive step :=
  | IOWait          (* [await] on an upstream request *)
  | Spawn           (* [spawn(ffmpeg, args)] *)
  | OnCloseKill.    (* [res.on('close', () => ffmpeg.kill(..))] / [req.on(...)] *)

Inductive pstatus := Running | Killed.

Record PState := mkPState {
  proc : option pstatus;   (* the request's ffmpeg process, once spawned *)
  listener : bool;         (* a kill-on-close listener is registered *)
  closed : bool            (* the client's connection has closed *)
}.

Definition init : PState := mkPState None false false.

(** The ['close'] event: sets [closed] and runs the registered listener. *)
Definition deliver_close (s : PState) : PState :=
  mkPState (if listener s then match proc s with
                               | Some Running => Some Killed
                               | p => p
                               end
            else proc s)
           (listener s) true.

Definition exec (st : step) (s : PState) : PState :=
  match st with
  | IOWait => s
  | Spawn => mkPState (Some Running) (listener s) (closed s)
  | OnCloseKill => mkPState (proc s) true (closed s)
  end.

(** Run the handler; the client closes at the [k]-th yield point
    (counting the [IOWait]s, then the end of the handler), or never. *)
Fixpoint run (prog : list step) (k : option nat) (s : PState) : PState :=
  match prog with
  | [] => match k with Some O => deliver_close s | _ => s end
  | IOWait :: prog' =>
      match k with
      | Some O => run prog' None (deliver_close s)
      | Some (S k') => run prog' (Some k') s
      | None => run prog' None s
      end
  | st :: prog' => run prog' k (exec st s)
  end.

(** [src/index.js] [segment_route]: [await getVideoFormats] waits for I/O on
    a cache miss; [runFFmpeg] awaits the forced refresh when the URL is
    expired; then [spawn] and, synchronously after it, [res.on('close')]. *)
Definition index_segment (cache_miss expired : bool) : list step :=
  (if cache_miss then [IOWait] else []) ++ (if expired then [IOWait] else [])
  ++ [Spawn; OnCloseKill].

(** [part_000] / [part_001] segment routes: [await getVideoUrl], then
    [spawn] and [req.on('close')]. *)
Definition single_segment (refetch : bool) : list step :=
  (if refetch then [IOWait] else []) ++ [Spawn; OnCloseKill].

(** [part_002] segment routes: [await getVideoFormats], then [runFFmpeg]. *)
Definition part002_segment (refetch : bool) : list step :=
  (if refetch then [IOWait] else []) ++ [Spawn; OnCloseKill].

End Lifecycle.

(* ================================================================== *)
(** ** Test fixtures: fake resolution APIs *)
(* ================================================================== *)

Module Fixtures.
Import JS Model.

(** A clock reading in October 2025 (ms). *)
Definition t0 : Z := 1760400000000.

Definition fresh_720p : Format :=
  mkFormat "video_with_audio" "720p" "unknown" (Some "https://x/?expire=9999999999").

(** The upstream of the spec's scenario: [{title:"T", duration:125,
    items:[{type:"video_with_audio", label:"720p", url:"https://x/?expire=9999999999"}]}]. *)
Definition scenario_upstream : Upstream :=
  fun _ _ => Ok (mkMedia "T" "" 125 [fresh_720p]).

Definition empty_world {V} : World V := mkWorld empty [] [] t0.

(** An upstream whose only format carries an [expire] instant long past. *)
Definition stale_720p : Format :=
  mkFormat "video_with_audio" "720p" "unknown" (Some "https://x/?expire=1").
Definition stale_upstream : Upstream :=
  fun _ _ => Ok (mkMedia "T" "" 125 [stale_720p]).

(** The first call answers [stale_720p]; later calls answer only 1080p. *)
Definition stale_then_1080p_upstream : Upstream :=
  fun n _ => match n with
             | O => Ok (mkMedia "T" "" 125 [stale_720p])
             | S _ => Ok (mkMedia "T" "" 125 [mkFormat "video_with_audio" "1080p" "mp4" (Some "https://x/?expire=9999999999")])
             end.

Definition fmt_720p60 : Format := mkFormat "video_with_audio" "720p60" "mp4" (Some "https://x/?expire=9999999999").
Definition fmt_audio_360p : Format := mkFormat "audio" "360p" "m4a" (Some "https://x/?expire=9999999999").
Definition fmt_1080p : Format := mkFormat "video_with_audio" "1080p" "mp4" (Some "https://x/?expire=9999999999").

(** A video format and an audio format, both fresh. *)
Definition av_upstream : Upstream :=
  fun _ _ => Ok (mkMedia "T" "" 125 [fresh_720p; fmt_audio_360p]).

(** An audio format whose URL expired long ago; an upstream always
    answering it, and one whose later answers have no audio at all. *)
Definition stale_audio : Format := mkFormat "audio" "360p" "m4a" (Some "https://x/?expire=1").
Definition stale_audio_upstream : Upstream :=
  fun _ _ => Ok (mkMedia "T" "" 125 [fresh_720p; stale_audio]).
Definition stale_then_noaudio_upstream : Upstream :=
  fun n _ => match n with
             | O => Ok (mkMedia "T" "" 125 [fresh_720p; stale_audio])
             | S _ => Ok (mkMedia "T" "" 125 [fresh_720p])
             end.

(** An upstream that is down. *)
Definition down_upstream : Upstream := fun _ _ => Err "Request failed with status code 503".

(** Fixtures of the batch server: conversions that succeed or fail, the
    output directory [path.join(HLS_DIR, v)] with [HLS_DIR] being
    [/srv/hls-content], and a fresh server. *)
Definition transcode_ok : Batch.Transcoder := fun _ => None.
Definition transcode_fail : Batch.Transcoder := fun _ => Some "Server returned 403 Forbidden".
Definition HLS_DIR : Batch.Path := ["srv"; "hls-content"].
Definition hls_dir (v : string) : Batch.Path := Batch.path_join HLS_DIR v.
Definition empty_bworld : Batch.BWorld := Batch.mkBWorld empty_world empty.
Definition watch_tTPk : string := "https://www.youtube.com/watch?v=tTPk-fSx5gc".

End Fixtures.

(* ================================================================== *)
(** * Properties *)
(* ================================================================== *)
(** ** Strings *)

Module StringFacts.
Import JS.

Lemma strip_prefix_app (p t : string) : strip_prefix p (p ++ t) = Some t.
Proof.
  induction p as [|a p IH]; simpl; [reflexivity|].
  rewrite Ascii.eqb_refl. exact IH.
Qed.

Lemma strip_prefix_some (p s t : string) : strip_prefix p s = Some t -> s = p ++ t.
Proof.
  revert s. induction p as [|a p IH]; intros s H; simpl in *.
  - congruence.
  - destruct s as [|b s]; [discriminate|].
    destruct (Ascii.eqb a b) eqn:E; [|discriminate].
    apply Ascii.eqb_eq in E. subst b. f_equal. apply IH. exact H.
Qed.

Lemma digits_prefix_nonempty (t : string) :
  digits_prefix t <> EmptyString ->
  exists c r, t = String c r /\ is_digit c = true /\ digits_prefix t = String c (digits_prefix r).
Proof.
  destruct t as [|c r]; simpl; [congruence|].
  destruct (is_digit c) eqn:E; [|congruence].
  intros _. exists c, r. auto.
Qed.

Lemma includes_unfold (s q : string) :
  includes s q = match strip_prefix q s with
                 | Some _ => true
                 | None => match s with EmptyString => false | String _ s' => includes s' q end
                 end.
Proof. destruct s; reflexivity. Qed.

(** [s.includes(q)] is substring containment. *)
Lemma includes_spec (s q : string) :
  includes s q = true <-> exists a b, s = a ++ q ++ b.
Proof.
  split.
  - induction s as [|c s IH]; simpl; intros H.
    + destruct (strip_prefix q "") as [t|] eqn:E; [|discriminate].
      apply strip_prefix_some in E. exists "", t. exact E.
    + destruct (strip_prefix q (String c s)) as [t|] eqn:E.
      * apply strip_prefix_some in E. exists "", t. exact E.
      * destruct (IH H) as (a & b & ->). exists (String c a), b. reflexivity.
  - intros (a & b & ->). induction a as [|c a IH]; rewrite includes_unfold.
    + change ("" ++ q ++ b) with (q ++ b). rewrite strip_prefix_app. reflexivity.
    + change (String c a ++ q ++ b) with (String c (a ++ q ++ b)).
      destruct (strip_prefix q (String c (a ++ q ++ b))); [reflexivity|exact IH].
Qed.

End StringFacts.

(** ** The expiry predicate *)

Module Expiry.
Import JS Model StringFacts.

Lemma find_expire_cons (a : ascii) (u : string) :
  find_expire (String a u) =
  match strip_prefix "expire=" (String a u) with
  | Some t => match digits_prefix t with EmptyString => find_expire u | d => Some d end
  | None => find_expire u
  end.
Proof. reflexivity. Qed.

Lemma find_expire_some (u d : string) :
  find_expire u = Some d ->
  exists p t, u = p ++ "expire=" ++ t /\ digits_prefix t = d /\ d <> EmptyString.
Proof.
  revert d. induction u as [|a u IH]; intros d H; [discriminate|].
  rewrite find_expire_cons in H.
  destruct (strip_prefix "expire=" (String a u)) as [t|] eqn:E.
  - destruct (digits_prefix t) as [|c r] eqn:D.
    + destruct (IH d H) as (p & t' & -> & D' & N). exists (String a p), t'. auto.
    + injection H as <-. exists "", t. apply strip_prefix_some in E.
      repeat split; [exact E|exact D|discriminate].
  - destruct (IH d H) as (p & t' & -> & D' & N). exists (String a p), t'. auto.
Qed.

Lemma find_expire_hit (c : ascii) (r : string) :
  is_digit c = true -> find_expire ("expire=" ++ String c r) <> None.
Proof.
  intros Hc.
  assert (Hs : "expire=" ++ String c r = String "e" ("xpire=" ++ String c r))
    by reflexivity.
  rewrite Hs, find_expire_cons, <- Hs, strip_prefix_app.
  cbn [digits_prefix]. rewrite Hc. discriminate.
Qed.

Lemma find_expire_none (u : string) : find_expire u = None <-> ~ has_expire u.
Proof.
  split.
  - intros H (p & c & r & Hc & ->). revert H. induction p as [|a p IH]; intros H.
    + exact (find_expire_hit c r Hc H).
    + apply IH. change (String a p ++ "expire=" ++ String c r)
                  with (String a (p ++ "expire=" ++ String c r)) in H.
      rewrite find_expire_cons in H.
      destruct (strip_prefix "expire=" (String a (p ++ "expire=" ++ String c r)))
        as [t|]; [destruct (digits_prefix t); [exact H|discriminate]|exact H].
  - intros N. destruct (find_expire u) as [d|] eqn:E; [|reflexivity].
    exfalso. apply N.
    destruct (find_expire_some u d E) as (p & t & -> & D & Hd).
    rewrite <- D in Hd. destruct (digits_prefix_nonempty t Hd) as (c & r & -> & Hc & _).
    exists p, c, r. auto.
Qed.

Lemma isUrlExpired_m_spec (margin now : Z) (u : string) :
  isUrlExpired_m margin now u = true <->
  (~ has_expire u \/
   exists d, find_expire u = Some d /\ (digits_value d * 1000 - margin <= now)%Z).
Proof.
  unfold isUrlExpired_m. destruct (find_expire u) as [d|] eqn:E.
  - rewrite Z.leb_le. split.
    + intros H. right. exists d. auto.
    + intros [N|(d' & E' & H)].
      * apply find_expire_none in N. congruence.
      * congruence.
  - split; [intros _; left; apply find_expire_none; exact E|reflexivity].
Qed.

Lemma isUrlExpired_m_stale (margin now : Z) (u : string) :
  (0 <= margin)%Z ->
  (~ has_expire u \/ exists d, find_expire u = Some d /\ (digits_value d * 1000 <= now)%Z) ->
  isUrlExpired_m margin now u = true.
Proof.
  intros Hm H. apply isUrlExpired_m_spec.
  destruct H as [N|(d & E & Hd)]; [left; exact N|right; exists d; split; [exact E|lia]].
Qed.

(** Claim C4. In every on-demand variant, [isUrlExpired(url)] is true
    exactly when [url] has no [expire=<digits>] (in the sense of
    [/expire=(\d+)/]) or [Date.now() >= expire * 1000 - margin]; the margin
    is 300 s in [src/index.js], [part_001] and [part_002] and 1800 s in
    [part_000], so always between 300 and 1800 s; hence a URL missing the
    parameter, or whose [expire] instant is not in the future, is always
    classified expired. *)
Theorem isUrlExpired_characterised :
  margin_index = 300000%Z /\ margin_part001 = 300000%Z /\
  margin_part002 = 300000%Z /\ margin_part000 = 1800000%Z /\
  (forall m, In m [margin_index; margin_part000; margin_part001; margin_part002] ->
     (300000 <= m <= 1800000)%Z) /\
  (forall m now u, In m [margin_index; margin_part000; margin_part001; margin_part002] ->
     (isUrlExpired_m m now u = true <->
      (~ has_expire u \/
       exists d, find_expire u = Some d /\ (digits_value d * 1000 - m <= now)%Z))) /\
  (forall m now u, In m [margin_index; margin_part000; margin_part001; margin_part002] ->
     (~ has_expire u \/
      exists d, find_expire u = Some d /\ (digits_value d * 1000 <= now)%Z) ->
     isUrlExpired_m m now u = true) /\
  (forall now u, IndexJs.isUrlExpired now u = isUrlExpired_m margin_index now u /\
                 Part002.isUrlExpired now u = isUrlExpired_m margin_part002 now u).
Proof.
  assert (Hb : forall m, In m [margin_index; margin_part000; margin_part001; margin_part002] ->
                 (300000 <= m <= 1800000)%Z).
  { intros m Hm. simpl in Hm.
    unfold margin_index, margin_part000, margin_part001, margin_part002 in Hm.
    destruct Hm as [<-|[<-|[<-|[<-|[]]]]]; lia. }
  refine (conj eq_refl (conj eq_refl (conj eq_refl (conj eq_refl
            (conj Hb (conj _ (conj _ _))))))).
  - intros m now u _. apply isUrlExpired_m_spec.
  - intros m now u Hm H. apply isUrlExpired_m_stale; [specialize (Hb m Hm); lia|exact H].
  - intros now u. split; reflexivity.
Qed.

End Expiry.

(** ** Playlists *)

Module Playlist.
Import JS Model Manifest.
Local Open Scope Q_scope.

Lemma segments_length (d : Q) (sd : Z) (uri : nat -> string) :
  length (segments d sd uri) = Z.to_nat (numSegments d sd).
Proof. unfold segments. rewrite length_map, length_seq. reflexivity. Qed.

Lemma segments_nth (d : Q) (sd : Z) (uri : nat -> string) (i : nat) :
  (i < Z.to_nat (numSegments d sd))%nat ->
  nth_error (segments d sd uri) i = Some (segDur d sd i, uri i).
Proof.
  intros Hi. unfold segments. rewrite nth_error_map, nth_error_seq.
  apply Nat.ltb_lt in Hi. rewrite Hi. reflexivity.
Qed.

Lemma numSegments_pos (d : Q) : 0 < d -> (0 < numSegments d 10)%Z.
Proof.
  intros Hd. unfold numSegments.
  pose proof (Qle_ceiling (d / inject_Z 10)) as Hc.
  destruct (Z.lt_ge_cases 0 (Qceiling (d / inject_Z 10))) as [Hp|Hn]; [exact Hp|].
  exfalso. rewrite Zle_Qle in Hn.
  change (inject_Z 10) with 10 in *. change (inject_Z 0) with 0 in Hn.
  assert (H10 : 0 < d / 10) by (apply Qlt_shift_div_l; [reflexivity|lra]).
  set (x := d / 10) in *. set (y := inject_Z _) in *. lra.
Qed.

Lemma last_segment_bounds (d : Q) :
  0 < d ->
  0 < d - inject_Z ((numSegments d 10 - 1) * 10) /\
  d - inject_Z ((numSegments d 10 - 1) * 10) <= 10.
Proof.
  intros Hd. unfold numSegments.
  pose proof (Qle_ceiling (d / inject_Z 10)) as Hc.
  pose proof (Qceiling_lt (d / inject_Z 10)) as Hl.
  set (n := Qceiling (d / inject_Z 10)) in *.
  replace n with ((n - 1) + 1)%Z in Hc by lia.
  rewrite inject_Z_plus in Hc. rewrite inject_Z_mult.
  change (inject_Z 10) with 10 in *. change (inject_Z 1) with 1 in Hc.
  assert (Hx : d == (d / 10) * 10) by field.
  set (x := d / 10) in *. set (z := inject_Z (n - 1)) in *.
  split; lra.
Qed.

(** Claim C3. For every duration [d > 0] and segment duration 10, the
    segment loop of the variant and audio playlists (both built by
    [segments d 10 uri], with [variant_uri] resp. [audio_uri]) emits exactly
    [ceil(d / 10)] segments, segment [i] declaring [min(10, d - i*10)]; the
    last one declares [d - (count-1)*10], which is [> 0] and [<= 10]. With
    the spec's fake upstream ([duration: 125], one [720p] combined format),
    [GET /stream/tTPk-fSx5gc/720p.m3u8] answers that playlist: 13 segments,
    the last one [#EXTINF:5.000,]. *)
Theorem manifest_segment_count (d : Q) (uri : nat -> string) (Hd : 0 < d) :
  let n := Z.to_nat (Qceiling (d / 10)) in
  let segs := segments d 10 uri in
  length segs = n /\
  (forall i, (i < n)%nat ->
     nth_error segs i = Some (Qmin 10 (d - inject_Z (Z.of_nat i * 10)%Z), uri i)) /\
  (1 <= n)%nat /\
  (exists last, nth_error segs (n - 1)%nat = Some (last, uri (n - 1)%nat) /\
     last == d - inject_Z ((Z.of_nat n - 1) * 10)%Z /\ 0 < last /\ last <= 10) /\
  (let vsegs := segments 125 10 (variant_uri "tTPk-fSx5gc" "720p") in
   fst (IndexJs.variant_route Fixtures.scenario_upstream "tTPk-fSx5gc" "720p"
          Fixtures.empty_world) = Ok (Manifest_ (playlist 10 vsegs)) /\
   length vsegs = 13%nat /\
   List.last (map extinf vsegs) ""
     = "#EXTINF:5.000," ++ nl ++ "/stream/tTPk-fSx5gc/segment12_720p.ts" ++ nl).
Proof.
  intros n segs.
  pose proof (numSegments_pos d Hd) as Hpos.
  pose proof (last_segment_bounds d Hd) as [Hl1 Hl2].
  change (Qceiling (d / 10)) with (numSegments d 10) in n.
  assert (Hn : Z.of_nat n = numSegments d 10) by (unfold n; lia).
  split; [apply segments_length|].
  split; [intros i Hi; apply segments_nth; exact Hi|].
  split; [unfold n; lia|].
  split.
  - exists (segDur d 10 (n - 1)). split; [apply segments_nth; unfold n in *; lia|].
    assert (He : Z.of_nat (n - 1) = (numSegments d 10 - 1)%Z) by lia.
    unfold segDur. rewrite He, Hn.
    rewrite (Q.min_r (inject_Z 10) _ Hl2).
    split; [reflexivity|split; assumption].
  - vm_compute. split; [reflexivity|split; reflexivity].
Qed.

(** [manifest_segment_count] at the scenario's duration 125: 13 segments,
    the last one 5 seconds long. *)
Lemma manifest_segment_count_witness :
  0 < 125 /\
  length (segments 125 10 (variant_uri "tTPk-fSx5gc" "720p")) = 13%nat /\
  nth_error (segments 125 10 (variant_uri "tTPk-fSx5gc" "720p")) 12
    = Some (Qmin 10 (125 - inject_Z 120), variant_uri "tTPk-fSx5gc" "720p" 12).
Proof.
  assert (H : 0 < 125) by (vm_compute; reflexivity).
  destruct (manifest_segment_count 125 (variant_uri "tTPk-fSx5gc" "720p") H)
    as (Hlen & Hnth & _).
  split; [exact H|]. split; [exact Hlen|].
  exact (Hnth 12%nat (Nat.lt_succ_diag_r 12)).
Defined.

End Playlist.

(** ** Format selection and the master manifest *)

Module Selection.
Import JS Model Manifest StringFacts.

Lemma find_some_iff {A} (p : A -> bool) (l : list A) (x : A) :
  List.find p l = Some x <->
  exists pre post, l = (pre ++ x :: post)%list /\ p x = true /\
                   forall y, In y pre -> p y = false.
Proof.
  split.
  - induction l as [|a l IH]; simpl; [discriminate|intros H].
    destruct (p a) eqn:Ea.
    + injection H as <-. exists [], l.
      split; [reflexivity|split; [exact Ea|intros y []]].
    + destruct (IH H) as (pre & post & -> & Hx & Hpre).
      exists (a :: pre), post. split; [reflexivity|split; [exact Hx|]].
      intros y [<-|Hy]; [exact Ea|exact (Hpre y Hy)].
  - intros (pre & post & -> & Hx & Hpre). induction pre as [|a pre IH]; simpl.
    + rewrite Hx. reflexivity.
    + rewrite (Hpre a (or_introl eq_refl)). apply IH.
      intros y Hy. apply Hpre. right. exact Hy.
Qed.

Lemma find_none_iff {A} (p : A -> bool) (l : list A) :
  List.find p l = None <-> forall y, In y l -> p y = false.
Proof.
  induction l as [|a l IH]; simpl; [split; [intros _ y []|reflexivity]|].
  destruct (p a) eqn:Ea; split.
  - discriminate.
  - intros H. rewrite (H a (or_introl eq_refl)) in Ea. discriminate.
  - intros H y [<-|Hy]; [exact Ea|apply IH; assumption].
  - intros H. apply IH. intros y Hy. apply H. right. exact Hy.
Qed.

(** The selection predicate of every quality lookup, in words. *)
Definition combined_with (q : string) (f : Format) : Prop :=
  ftype f = "video_with_audio" /\ exists a b, quality f = a ++ q ++ b.

Lemma matches_quality_spec (q : string) (f : Format) :
  matches_quality q f = true <-> combined_with q f.
Proof.
  unfold matches_quality, combined_with.
  rewrite andb_true_iff, includes_spec, String.eqb_eq. tauto.
Qed.

Lemma matches_quality_false (q : string) (f : Format) :
  matches_quality q f = false <-> ~ combined_with q f.
Proof.
  rewrite <- matches_quality_spec. destruct (matches_quality q f); split; congruence.
Qed.

(** Format selection policy of the spec (4.1), in its words: prefer a
    combined audio+video format whose quality label contains the token,
    else the first combined format, else no format. *)
Definition policy_select (q : string) (fs : list Format) : option Format :=
  match List.find (fun f => matches_quality q f) fs with
  | Some f => Some f
  | None => List.find (fun f => String.eqb (ftype f) "video_with_audio") fs
  end.

Lemma master_loop_concat (videoId : string) (fs : list Format) (qs : list string) :
  master_loop videoId fs qs =
  concat_all (map (stream_inf videoId)
                        (List.filter (fun q => match find_quality q fs with Some _ => true | None => false end) qs)).
Proof.
  induction qs as [|q qs IH]; [reflexivity|].
  cbn [master_loop List.filter]. rewrite IH.
  destruct (find_quality q fs); cbn [map].
  - reflexivity.
  - reflexivity.
Qed.

(** Claim C9. Quality matching is substring containment: the lookup
    [formats.find((f) => f.quality.includes(q) && f.type === 'video_with_audio')]
    (variant and segment routes of [src/index.js] and [part_002], first step
    of [getVideoUrl]) returns [f] exactly when [f] is the first combined
    format whose label contains [q] as a contiguous substring; so "720p"
    selects a "720p60" format and "0p" selects a "1080p" one. *)
Theorem quality_match_is_substring :
  (forall (q : string) (fs : list Format) (f : Format),
     find_quality q fs = Some f <->
     exists pre post, fs = (pre ++ f :: post)%list /\ combined_with q f /\
                      forall g, In g pre -> ~ combined_with q g) /\
  find_quality "720p" [Fixtures.fmt_720p60] = Some Fixtures.fmt_720p60 /\
  find_quality "0p" [Fixtures.fmt_audio_360p; Fixtures.fmt_1080p] = Some Fixtures.fmt_1080p.
Proof.
  split; [|split; reflexivity].
  intros q fs f. unfold find_quality. rewrite find_some_iff. split.
  - intros (pre & post & -> & Hf & Hpre). exists pre, post.
    split; [reflexivity|split; [apply matches_quality_spec; exact Hf|]].
    intros g Hg. apply matches_quality_false. exact (Hpre g Hg).
  - intros (pre & post & -> & Hf & Hpre). exists pre, post.
    split; [reflexivity|split; [apply matches_quality_spec; exact Hf|]].
    intros g Hg. apply matches_quality_false. exact (Hpre g Hg).
Qed.

(** Claim C10. The master manifest of [src/index.js] and [part_002] lists
    a variant only for a quality of the fixed list 360p, 480p, 720p, 1080p
    (whatever the labels of the resolved formats), and the [RESOLUTION]
    attribute of each is [NxN], [N] the numeric prefix of the quality:
    720p yields [RESOLUTION=720x720]. *)
Theorem master_resolution_square :
  (forall (videoId : string) (fs : list Format),
     exists qs, master videoId fs = master_header videoId ++ concat_all (map (stream_inf videoId) qs) /\
       forall q, In q qs ->
         In q videoQualities /\
         exists N, q = N ++ "p" /\ parseInt q = Fin (digits_value N) /\
                   resolution q = N ++ "x" ++ N) /\
  resolution "720p" = "720x720".
Proof.
  split; [|reflexivity].
  intros videoId fs. exists (List.filter (fun q => match find_quality q fs with Some _ => true | None => false end) videoQualities).
  split; [unfold master; rewrite master_loop_concat; reflexivity|].
  intros q Hq. apply List.filter_In in Hq as [Hq _]. split; [exact Hq|].
  simpl in Hq. destruct Hq as [<-|[<-|[<-|[<-|[]]]]].
  - exists "360". repeat split; reflexivity.
  - exists "480". repeat split; reflexivity.
  - exists "720". repeat split; reflexivity.
  - exists "1080". repeat split; reflexivity.
Qed.

Lemma index_variant_route_none (up : Upstream) (videoId q : string) (w w1 : World Media)
    (data : Media) :
  IndexJs.getVideoFormats up videoId false w = (Ok data, w1) ->
  find_quality q (formats data) = None ->
  fst (IndexJs.variant_route up videoId q w) = Ok (JsonError 500 "Format not available").
Proof.
  intros H N. unfold IndexJs.variant_route, catch500, bind. rewrite H, N. reflexivity.
Qed.

Lemma index_segment_request_none (up : Upstream) (videoId seg c q : string)
    (w w1 : World Media) (data : Media) :
  segment_params seg = Some (c, q) ->
  IndexJs.getVideoFormats up videoId false w = (Ok data, w1) ->
  find_quality q (formats data) = None ->
  option_map (fun m => fst (m w)) (IndexJs.segment_request up videoId seg)
    = Some (Ok (JsonError 500 "Format not available")).
Proof.
  intros Hp H N. unfold IndexJs.segment_request. rewrite Hp. cbn [option_map].
  unfold IndexJs.segment_route, catch500, bind. rewrite H, N. reflexivity.
Qed.

Lemma part002_variant_route_none (up : Upstream) (videoId q : string) (w w1 : World Media)
    (data : Media) :
  Part002.getVideoFormats up videoId w = (Ok data, w1) ->
  find_quality q (formats data) = None ->
  fst (Part002.variant_route up videoId q w) = Ok (JsonError 500 "Format not available").
Proof.
  intros H N. unfold Part002.variant_route, catch500, bind. rewrite H, N. reflexivity.
Qed.

Lemma part002_segment_request_none (up : Upstream) (videoId seg c q : string)
    (w w1 : World Media) (data : Media) :
  segment_params seg = Some (c, q) ->
  Part002.getVideoFormats up videoId w = (Ok data, w1) ->
  find_quality q (formats data) = None ->
  option_map (fun m => fst (m w)) (Part002.segment_request up videoId seg)
    = Some (Ok (JsonError 500 "Format not available")).
Proof.
  intros Hp H N. unfold Part002.segment_request. rewrite Hp. cbn [option_map].
  unfold Part002.segment_route, catch500, bind. rewrite H, N. reflexivity.
Qed.

Lemma getVideoUrl_fetch_select (validate : bool) (margin : Z) (up : Upstream)
    (videoId q : string) (w : World Single.UrlInfo) (d : Media) :
  negb validate || valid_id videoId = true ->
  cache w !! (videoId ++ "_" ++ q) = None ->
  up (length (calls w)) (watch_url videoId) = Ok d ->
  fst (Single.getVideoUrl_gen validate margin up videoId q w) =
  match Single.select_format q (formats d) with
  | None => Err "No suitable format found"
  | Some f => Ok (Single.mkUrlInfo (url f) (title d) (duration d))
  end.
Proof.
  intros Hv Hc Hu. unfold Single.getVideoUrl_gen.
  destruct validate, (valid_id videoId); try discriminate; cbn [andb negb];
  unfold bind, cache_get, get_now, fetchYouTubeData; cbn [cache calls now spawned];
  rewrite Hc, Hu; destruct (Single.select_format q (formats d)); reflexivity.
Qed.

(** [POST /api/process] of the batch server, on a cache miss whose first
    call to the API succeeds, selects with [Single.select_format]. *)
Lemma process_route_select (videoDir : string -> Batch.Path) (up : Upstream)
    (tr : Batch.Transcoder) (u : string) (q : option string) (s : Batch.BWorld)
    (v : string) (d : Media) :
  Batch.match_v u = Some v ->
  (forall m t, cache (Batch.bw s) !! v = Some (m, t) -> (t < now (Batch.bw s))%Z) ->
  up (length (calls (Batch.bw s))) u = Ok d ->
  let r := Batch.process_route videoDir up tr (Some u) q s in
  match Single.select_format (match q with Some q' => q' | None => "720p" end) (formats d) with
  | None => fst r = Ok (Batch.BError 404 "No suitable video format found")
  | Some f =>
      ~ videoDir v ∈ Batch.outputs s ->
      spawned (Batch.bw (snd r))
        = (spawned (Batch.bw s) ++ [mkProc [js_str (url f); Batch.path_str (videoDir v)]])%list
  end.
Proof.
  intros Hm Hl Hu r. unfold r. clear r.
  destruct u as [|c u']; [discriminate|]. destruct s as [w o]. cbn [Batch.bw Batch.outputs] in *.
  unfold Batch.process_route, Batch.catch_internal, Batch.bbind, Batch.lift, Batch.bret.
  rewrite Hm. cbn [Batch.bw Batch.outputs]. unfold cache_get.
  assert (Hf : forall w1 : World Batch.Meta, calls w1 = calls w ->
            Batch.fetchYouTubeData up (String c u') 3 w1
            = (Ok (Some d), mkWorld (cache w1) (calls w1 ++ [String c u']) (spawned w1) (now w1))).
  { intros w1 E. unfold Batch.fetchYouTubeData. cbn [Batch.fetch_loop]. rewrite E, Hu. reflexivity. }
  destruct (cache w !! v) as [[m0 t0]|] eqn:Hc.
  - specialize (Hl m0 t0 eq_refl).
    assert (Hb : (now w <=? t0)%Z = false) by (apply Z.leb_gt; lia). rewrite Hb.
    rewrite Hf by reflexivity. cbn [Batch.bw Batch.outputs fst snd cache calls spawned now].
    destruct (Single.select_format _ (formats d)) as [f|]; [|reflexivity].
    intros Hout. unfold Batch.convertToHLS. cbn [Batch.bw Batch.outputs].
    destruct (decide (videoDir v ∈ o)) as [Hin|_]; [contradiction|].
    destruct (tr (url f)); reflexivity.
  - rewrite Hf by reflexivity. cbn [Batch.bw Batch.outputs fst snd cache calls spawned now].
    destruct (Single.select_format _ (formats d)) as [f|]; [|reflexivity].
    intros Hout. unfold Batch.convertToHLS. cbn [Batch.bw Batch.outputs].
    destruct (decide (videoDir v ∈ o)) as [Hin|_]; [contradiction|].
    destruct (tr (url f)); reflexivity.
Qed.

(** Claim C7 (counterexample). With one combined format labelled "720p",
    the spec's policy falls back to it for the token "1080p", but
    [GET /stream/:videoId/1080p.m3u8] of [src/index.js] answers
    [Format not available]. *)
Lemma variant_route_no_fallback :
  policy_select "1080p" [Fixtures.fresh_720p] = Some Fixtures.fresh_720p /\
  fst (IndexJs.variant_route Fixtures.scenario_upstream "tTPk-fSx5gc" "1080p"
         Fixtures.empty_world) = Ok (JsonError 500 "Format not available").
Proof. split; vm_compute; reflexivity. Qed.

(** Claim C7 (amended). The policy (first combined format whose label
    contains the token, else the first combined format) is applied by the
    single-quality resolver [getVideoUrl] ([part_000], [part_001]), which
    fails with [No suitable format found] exactly when there is no
    combined format, and by [POST /api/process] of [part_000]'s batch
    server, which then answers [404 No suitable video format found] and
    otherwise converts the selected format's URL. The multi-quality
    variant-manifest and video-segment routes of [src/index.js] and
    [part_002] use the token lookup alone; they answer
    [500 Format not available] when no combined label contains the token
    (for a segment request, the [quality] parameter Express binds). *)
Theorem format_selection_by_path :
  (forall q fs, Single.select_format q fs = policy_select q fs) /\
  (forall q fs f, find_quality q fs = Some f -> policy_select q fs = Some f) /\
  (forall q fs, find_quality q fs = None -> policy_select q fs = find_combined fs) /\
  (forall q fs, policy_select q fs = None <->
                forall f, In f fs -> ftype f <> "video_with_audio") /\
  (forall validate margin up videoId q w d,
     negb validate || valid_id videoId = true ->
     cache w !! (videoId ++ "_" ++ q) = None ->
     up (length (calls w)) (watch_url videoId) = Ok d ->
     fst (Single.getVideoUrl_gen validate margin up videoId q w) =
     match policy_select q (formats d) with
     | None => Err "No suitable format found"
     | Some f => Ok (Single.mkUrlInfo (url f) (title d) (duration d))
     end) /\
  (forall videoDir up tr u q s v d,
     Batch.match_v u = Some v ->
     (forall m t, cache (Batch.bw s) !! v = Some (m, t) -> (t < now (Batch.bw s))%Z) ->
     up (length (calls (Batch.bw s))) u = Ok d ->
     let r := Batch.process_route videoDir up tr (Some u) q s in
     match policy_select (match q with Some q' => q' | None => "720p" end) (formats d) with
     | None => fst r = Ok (Batch.BError 404 "No suitable video format found")
     | Some f =>
         ~ videoDir v ∈ Batch.outputs s ->
         spawned (Batch.bw (snd r))
           = (spawned (Batch.bw s) ++ [mkProc [js_str (url f); Batch.path_str (videoDir v)]])%list
     end) /\
  (forall up videoId seg c q w w1 data,
     IndexJs.getVideoFormats up videoId false w = (Ok data, w1) ->
     find_quality q (formats data) = None ->
     fst (IndexJs.variant_route up videoId q w) = Ok (JsonError 500 "Format not available") /\
     (segment_params seg = Some (c, q) ->
      option_map (fun m => fst (m w)) (IndexJs.segment_request up videoId seg)
        = Some (Ok (JsonError 500 "Format not available")))) /\
  (forall up videoId seg c q w w1 data,
     Part002.getVideoFormats up videoId w = (Ok data, w1) ->
     find_quality q (formats data) = None ->
     fst (Part002.variant_route up videoId q w) = Ok (JsonError 500 "Format not available") /\
     (segment_params seg = Some (c, q) ->
      option_map (fun m => fst (m w)) (Part002.segment_request up videoId seg)
        = Some (Ok (JsonError 500 "Format not available")))).
Proof.
  split; [reflexivity|].
  split; [intros q fs f H; unfold policy_select; change (List.find (fun f => matches_quality q f) fs) with (find_quality q fs); rewrite H; reflexivity|].
  split; [intros q fs H; unfold policy_select; change (List.find (fun f => matches_quality q f) fs) with (find_quality q fs); rewrite H; reflexivity|].
  split.
  { intros q fs. unfold policy_select. change (List.find (fun f => matches_quality q f) fs) with (find_quality q fs).
    destruct (find_quality q fs) as [f|] eqn:E.
    - split; [discriminate|]. intros H. exfalso.
      apply find_some_iff in E as (pre & post & -> & Hf & _).
      apply matches_quality_spec in Hf as [Ht _].
      apply (H f); [apply in_or_app; right; left; reflexivity|exact Ht].
    - rewrite find_none_iff. split.
      + intros H f Hf Ht. specialize (H f Hf). rewrite Ht in H. discriminate.
      + intros H f Hf. apply String.eqb_neq. exact (H f Hf). }
  split.
  { intros validate margin up videoId q w d Hv Hc Hu.
    exact (getVideoUrl_fetch_select validate margin up videoId q w d Hv Hc Hu). }
  split.
  { intros videoDir up tr u q s v d Hm Hl Hu.
    exact (process_route_select videoDir up tr u q s v d Hm Hl Hu). }
  split.
  - intros up videoId seg c q w w1 data H N. split.
    + exact (index_variant_route_none up videoId q w w1 data H N).
    + intros Hp. exact (index_segment_request_none up videoId seg c q w w1 data Hp H N).
  - intros up videoId seg c q w w1 data H N. split.
    + exact (part002_variant_route_none up videoId q w w1 data H N).
    + intros Hp. exact (part002_segment_request_none up videoId seg c q w w1 data Hp H N).
Qed.

End Selection.

(** ** The resolver of [src/index.js] and its cache *)

Module Resolver.
Import JS Model.

Definition at_time {V} (w : World V) (t : Z) : World V :=
  mkWorld (cache w) (calls w) (spawned w) t.

Lemma getVideoFormats_hit (up : Upstream) (videoId : string) (w : World Media) (v : Media) (t : Z) :
  valid_id videoId = true ->
  cache w !! (videoId ++ "_formats") = Some (v, t) -> (now w <= t)%Z ->
  IndexJs.getVideoFormats up videoId false w = (Ok v, w).
Proof.
  intros Hv Hc Ht. unfold IndexJs.getVideoFormats. rewrite Hv. cbn [negb].
  unfold bind, cache_get. rewrite Hc. apply Z.leb_le in Ht. rewrite Ht. reflexivity.
Qed.

Lemma getVideoFormats_miss (up : Upstream) (videoId : string) (w : World Media) :
  valid_id videoId = true ->
  (forall v t, cache w !! (videoId ++ "_formats") = Some (v, t) -> (t < now w)%Z) ->
  let res := IndexJs.getVideoFormats up videoId false w in
  calls (snd res) = (calls w ++ [watch_url videoId])%list /\
  now (snd res) = now w /\
  match up (length (calls w)) (watch_url videoId) with
  | Ok d =>
      fst res = Ok (with_formats d (valid_formats (formats d))) /\
      cache (snd res) !! (videoId ++ "_formats") =
        Some (with_formats d (valid_formats (formats d)), (now w + IndexJs.stdTTL * 1000)%Z)
  | Err m => fst res = Err ("API request failed: " ++ m)
  end.
Proof.
  intros Hv Hl res. unfold res, IndexJs.getVideoFormats. rewrite Hv. cbn [negb].
  unfold bind, cache_get.
  destruct (cache w !! (videoId ++ "_formats")) as [[v t]|] eqn:Hc.
  - specialize (Hl v t eq_refl). assert (Hb : (now w <=? t)%Z = false) by (apply Z.leb_gt; lia).
    rewrite Hb. unfold fetchYouTubeData, cache_set, ret. cbn [cache calls now spawned].
    destruct (up (length (calls w)) (watch_url videoId)); cbn [fst snd cache calls now];
      repeat split; try reflexivity. apply lookup_insert_eq.
  - unfold fetchYouTubeData, cache_set, ret. cbn [cache calls now spawned].
    destruct (up (length (calls w)) (watch_url videoId)); cbn [fst snd cache calls now];
      repeat split; try reflexivity. apply lookup_insert_eq.
Qed.

Lemma getVideoFormats_ok_entry (up : Upstream) (videoId : string) (w w1 : World Media) (r : Media) :
  valid_id videoId = true ->
  IndexJs.getVideoFormats up videoId false w = (Ok r, w1) ->
  exists t, cache w1 !! (videoId ++ "_formats") = Some (r, t) /\ (now w <= t)%Z /\
            now w1 = now w /\
            (calls w1 <> calls w -> t = (now w + IndexJs.stdTTL * 1000)%Z).
Proof.
  intros Hv H.
  destruct (cache w !! (videoId ++ "_formats")) as [[v t]|] eqn:Hc.
  - destruct (Z.le_gt_cases (now w) t) as [Ht|Ht].
    + rewrite (getVideoFormats_hit up videoId w v t Hv Hc Ht) in H.
      injection H as <- <-. exists t. repeat split; [exact Hc|exact Ht|]. congruence.
    + assert (Hl : forall v' t', cache w !! (videoId ++ "_formats") = Some (v', t') -> (t' < now w)%Z)
        by (intros v' t' E; rewrite Hc in E; injection E as _ <-; lia).
      destruct (getVideoFormats_miss up videoId w Hv Hl) as (Hcalls & Hnow & Hup).
      rewrite H in Hcalls, Hnow, Hup. cbn [fst snd] in *.
      destruct (up (length (calls w)) (watch_url videoId)); [|discriminate].
      destruct Hup as [Hr Hcache]. injection Hr as Hr. subst r.
      exists (now w + IndexJs.stdTTL * 1000)%Z. unfold IndexJs.stdTTL in *.
      split; [exact Hcache|split; [lia|split; [exact Hnow|intros _; reflexivity]]].
  - assert (Hl : forall v' t', cache w !! (videoId ++ "_formats") = Some (v', t') -> (t' < now w)%Z)
      by (intros v' t' E; rewrite Hc in E; discriminate).
    destruct (getVideoFormats_miss up videoId w Hv Hl) as (Hcalls & Hnow & Hup).
    rewrite H in Hcalls, Hnow, Hup. cbn [fst snd] in *.
    destruct (up (length (calls w)) (watch_url videoId)); [|discriminate].
    destruct Hup as [Hr Hcache]. injection Hr as Hr. subst r.
    exists (now w + IndexJs.stdTTL * 1000)%Z. unfold IndexJs.stdTTL in *.
    split; [exact Hcache|split; [lia|split; [exact Hnow|intros _; reflexivity]]].
Qed.

(** Claim C5. For a valid identifier, [getVideoFormats(videoId, false)]
    ([src/index.js] l.62-81) returns the cached entry without calling the
    resolution API when a live [node-cache] entry exists for
    [videoId_formats]; when none is live it calls the API once and, on
    success, stores the fresh result with a 5 h TTL. So after a successful
    first resolve the entry stays live until an instant [t] (first call
    time + 5 h when the first call fetched), and a second resolve at any
    time up to [t] makes no upstream call. *)
Theorem getVideoFormats_cache_hit (up : Upstream) (videoId : string) (w : World Media)
    (Hv : valid_id videoId = true) :
  (forall v t, cache w !! (videoId ++ "_formats") = Some (v, t) -> (now w <= t)%Z ->
     IndexJs.getVideoFormats up videoId false w = (Ok v, w)) /\
  ((forall v t, cache w !! (videoId ++ "_formats") = Some (v, t) -> (t < now w)%Z) ->
     calls (snd (IndexJs.getVideoFormats up videoId false w))
       = (calls w ++ [watch_url videoId])%list /\
     forall d, up (length (calls w)) (watch_url videoId) = Ok d ->
       fst (IndexJs.getVideoFormats up videoId false w)
         = Ok (with_formats d (valid_formats (formats d))) /\
       cache (snd (IndexJs.getVideoFormats up videoId false w)) !! (videoId ++ "_formats")
         = Some (with_formats d (valid_formats (formats d)), (now w + IndexJs.stdTTL * 1000)%Z)) /\
  (forall r w1, IndexJs.getVideoFormats up videoId false w = (Ok r, w1) ->
     exists t, (now w <= t)%Z /\
       (calls w1 <> calls w -> t = (now w + IndexJs.stdTTL * 1000)%Z) /\
       forall t', (t' <= t)%Z ->
         IndexJs.getVideoFormats up videoId false (at_time w1 t') = (Ok r, at_time w1 t')).
Proof.
  split; [intros v t Hc Ht; exact (getVideoFormats_hit up videoId w v t Hv Hc Ht)|].
  split.
  - intros Hl. destruct (getVideoFormats_miss up videoId w Hv Hl) as (Hcalls & _ & Hup).
    split; [exact Hcalls|]. intros d Hd. rewrite Hd in Hup. exact Hup.
  - intros r w1 H.
    destruct (getVideoFormats_ok_entry up videoId w w1 r Hv H) as (t & Hc & Ht & Hnow & Hcalls).
    exists t. split; [exact Ht|split; [exact Hcalls|]].
    intros t' Ht'. apply (getVideoFormats_hit up videoId (at_time w1 t') r t Hv Hc Ht').
Qed.

Lemma getVideoFormats_cache_hit_witness :
  valid_id "tTPk-fSx5gc" = true /\
  (forall v t, cache (@Fixtures.empty_world Media) !! ("tTPk-fSx5gc" ++ "_formats") = Some (v, t) -> (now (@Fixtures.empty_world Media) <= t)%Z ->
     IndexJs.getVideoFormats Fixtures.scenario_upstream "tTPk-fSx5gc" false (@Fixtures.empty_world Media) = (Ok v, (@Fixtures.empty_world Media))) /\
  ((forall v t, cache (@Fixtures.empty_world Media) !! ("tTPk-fSx5gc" ++ "_formats") = Some (v, t) -> (t < now (@Fixtures.empty_world Media))%Z) ->
     calls (snd (IndexJs.getVideoFormats Fixtures.scenario_upstream "tTPk-fSx5gc" false (@Fixtures.empty_world Media)))
       = (calls (@Fixtures.empty_world Media) ++ [watch_url "tTPk-fSx5gc"])%list /\
     forall d, Fixtures.scenario_upstream (length (calls (@Fixtures.empty_world Media))) (watch_url "tTPk-fSx5gc") = Ok d ->
       fst (IndexJs.getVideoFormats Fixtures.scenario_upstream "tTPk-fSx5gc" false (@Fixtures.empty_world Media))
         = Ok (with_formats d (valid_formats (formats d))) /\
       cache (snd (IndexJs.getVideoFormats Fixtures.scenario_upstream "tTPk-fSx5gc" false (@Fixtures.empty_world Media))) !! ("tTPk-fSx5gc" ++ "_formats")
         = Some (with_formats d (valid_formats (formats d)), (now (@Fixtures.empty_world Media) + IndexJs.stdTTL * 1000)%Z)) /\
  (forall r w1, IndexJs.getVideoFormats Fixtures.scenario_upstream "tTPk-fSx5gc" false (@Fixtures.empty_world Media) = (Ok r, w1) ->
     exists t, (now (@Fixtures.empty_world Media) <= t)%Z /\
       (calls w1 <> calls (@Fixtures.empty_world Media) -> t = (now (@Fixtures.empty_world Media) + IndexJs.stdTTL * 1000)%Z) /\
       forall t', (t' <= t)%Z ->
         IndexJs.getVideoFormats Fixtures.scenario_upstream "tTPk-fSx5gc" false (at_time w1 t') = (Ok r, at_time w1 t')).
Proof.
  split; [reflexivity|].
  apply (getVideoFormats_cache_hit Fixtures.scenario_upstream "tTPk-fSx5gc" (@Fixtures.empty_world Media)).
  reflexivity.
Defined.

End Resolver.

(** ** Input validation *)

Module Validation.
Import JS Model Fixtures.

(** Claim C6 (code bug). [getVideoUrl] of [part_000] (l.314-341) does not
    check the identifier, unlike its twin in [part_001] (l.62-64): for
    ["bad id!"], [GET /api/info/bad id!] calls the resolution API, while
    [part_001] rejects it with [Invalid YouTube video ID] before any
    call. *)
Theorem info_route_unvalidated_call :
  valid_id "bad id!" = false /\
  calls (snd (Part000.info_route scenario_upstream "bad id!" empty_world))
    = ["https://www.youtube.com/watch?v=bad id!"] /\
  Part001.info_route scenario_upstream "bad id!" empty_world
    = (Ok (JsonError 500 "Invalid YouTube video ID"), empty_world).
Proof. vm_compute. repeat split; reflexivity. Qed.

(** Claim C8 (code bug). The segment routes of [src/index.js] do not
    check the parsed index, unlike [part_001] (l.145-147). For
    [GET /stream/tTPk-fSx5gc/asegment-1.aac] (l.276-292) the audio route
    resolves the formats (an upstream call) and spawns [ffmpeg] with
    [-ss -10]; for [asegmentabc.aac] with [-ss NaN]. The video segment
    route (l.258-274), where Express binds [segNum_] and leaves [segNum]
    undefined, spawns [ffmpeg] with [-ss NaN] for [segmenta720p.ts]
    (segment component ["a"]). [part_000]'s [segment-1.ts] (l.383-441)
    calls the API and spawns [ffmpeg] with [-ss -10]. [part_001] answers
    [Invalid segment number] for ["-1"] and ["abc"] with no upstream call
    and no process. *)
Theorem segment_route_unchecked_index :
  let w1 := snd (IndexJs.asegment_route av_upstream "tTPk-fSx5gc" "-1" empty_world) in
  let w2 := snd (IndexJs.asegment_route av_upstream "tTPk-fSx5gc" "abc" empty_world) in
  let w3 := snd (Part000.segment_route scenario_upstream "tTPk-fSx5gc" "-1" empty_world) in
  let u := "https://x/?expire=9999999999" in
  parseInt "-1" = Fin (-1) /\ parseInt "abc" = NaN /\
  calls w1 = [watch_url "tTPk-fSx5gc"] /\
  spawned w1 = [mkProc (IndexJs.ffmpeg_args u (Fin (-10)) 10 true)] /\
  In "-10" (IndexJs.ffmpeg_args u (Fin (-10)) 10 true) /\
  spawned w2 = [mkProc (IndexJs.ffmpeg_args u NaN 10 true)] /\
  In "NaN" (IndexJs.ffmpeg_args u NaN 10 true) /\
  segment_params "a720p" = Some ("a", "720p") /\
  option_map (fun m => spawned (snd (m empty_world)))
    (IndexJs.segment_request av_upstream "tTPk-fSx5gc" "a720p")
    = Some [mkProc (IndexJs.ffmpeg_args u NaN 10 false)] /\
  calls w3 = [watch_url "tTPk-fSx5gc"] /\
  spawned w3 = [mkProc (Single.single_ffmpeg_args_000 u (Fin (-10)))] /\
  Part001.segment_route scenario_upstream "tTPk-fSx5gc" "-1" empty_world
    = (Ok (JsonError 500 "Invalid segment number"), empty_world) /\
  Part001.segment_route scenario_upstream "tTPk-fSx5gc" "abc" empty_world
    = (Ok (JsonError 500 "Invalid segment number"), empty_world).
Proof. vm_compute. repeat split; try reflexivity; simpl; tauto. Qed.

End Validation.

(** ** URL refresh before transcoding *)

Module Refresh.
Import JS Model Fixtures.

(** Claim C1 (counterexample). The refresh of [runFFmpeg] (l.88-95) does
    not check the refreshed URL and keeps the stale one when the refreshed
    set lacks the format. With an upstream whose audio URL is already
    expired, and with one whose second answer has no audio format, the
    audio segment route of [src/index.js] spawns [ffmpeg] on
    ["https://x/?expire=1"], expired at spawn time. The [part_002] audio
    segment route spawns it with one call and no check. *)
Lemma asegment_route_stale_input :
  let w1 := snd (IndexJs.asegment_route stale_audio_upstream "tTPk-fSx5gc" "0" empty_world) in
  let w2 := snd (IndexJs.asegment_route stale_then_noaudio_upstream "tTPk-fSx5gc" "0" empty_world) in
  let w3 := snd (Part002.asegment_route stale_audio_upstream "tTPk-fSx5gc" "0" empty_world) in
  calls w1 = [watch_url "tTPk-fSx5gc"; watch_url "tTPk-fSx5gc"] /\
  spawned w1 = [mkProc (IndexJs.ffmpeg_args "https://x/?expire=1" (Fin 0) 10 true)] /\
  calls w2 = [watch_url "tTPk-fSx5gc"; watch_url "tTPk-fSx5gc"] /\
  spawned w2 = [mkProc (IndexJs.ffmpeg_args "https://x/?expire=1" (Fin 0) 10 true)] /\
  calls w3 = [watch_url "tTPk-fSx5gc"] /\
  spawned w3 = [mkProc (Part002.ffmpeg_args "https://x/?expire=1" (Fin 0) 10 true)] /\
  IndexJs.isUrlExpired (now w1) "https://x/?expire=1" = true /\
  Part002.isUrlExpired (now w3) "https://x/?expire=1" = true.
Proof. vm_compute. repeat split; reflexivity. Qed.

(** Claim C1 (amended). [runFFmpeg] of [src/index.js] passes a URL that is
    not expired at the check unchanged, with no upstream call. An expired
    one triggers exactly one forced resolution; on success the input is
    the URL of the first refreshed format with the same quality and type,
    not re-checked, or the original expired URL if there is none; on
    failure nothing is spawned and the API error is thrown. (A format
    without URL makes the check throw a [TypeError].) The audio and video
    segment routes of [part_002] hand the URL of the format
    [getVideoFormats] answered to [ffmpeg], with no expiry check of their
    own (the video route with [-ss NaN], [segNum] being unbound). *)
Theorem runFFmpeg_refresh (up : Upstream) (videoId : string) (format : Format)
    (st : jsnum) (dur : Z) (isAudio : bool) (w : World Media) :
  (forall u, url format = Some u -> IndexJs.isUrlExpired (now w) u = false ->
     IndexJs.runFFmpeg up videoId format st dur isAudio w =
     (Ok tt, mkWorld (cache w) (calls w)
               (spawned w ++ [mkProc (IndexJs.ffmpeg_args u st dur isAudio)])%list
               (now w))) /\
  (forall u, url format = Some u -> IndexJs.isUrlExpired (now w) u = true ->
     valid_id videoId = true ->
     let r := IndexJs.runFFmpeg up videoId format st dur isAudio w in
     calls (snd r) = (calls w ++ [watch_url videoId])%list /\
     match up (length (calls w)) (watch_url videoId) with
     | Ok d =>
         fst r = Ok tt /\
         spawned (snd r) = (spawned w ++
           [mkProc (IndexJs.ffmpeg_args
                      (js_str (url (match List.find (IndexJs.same_format format)
                                            (valid_formats (formats d)) with
                                    | Some f => f
                                    | None => format
                                    end))) st dur isAudio)])%list
     | Err m =>
         fst r = Err ("API request failed: " ++ m) /\
         spawned (snd r) = spawned w
     end) /\
  (url format = None ->
     IndexJs.runFFmpeg up videoId format st dur isAudio w = (Err undefined_match, w)) /\
  (forall segNum w1 data f,
     Part002.getVideoFormats up videoId w = (Ok data, w1) ->
     find_audio (formats data) = Some f ->
     Part002.asegment_route up videoId segNum w =
     (Ok (Streamed "audio/aac"),
      mkWorld (cache w1) (calls w1)
        (spawned w1 ++ [mkProc (Part002.ffmpeg_args (js_str (url f))
                                  (mul (parseInt segNum) 10) 10 true)])%list
        (now w1))) /\
  (forall seg c q w1 data f,
     segment_params seg = Some (c, q) ->
     Part002.getVideoFormats up videoId w = (Ok data, w1) ->
     find_quality q (formats data) = Some f ->
     option_map (fun m => m w) (Part002.segment_request up videoId seg) =
     Some (Ok (Streamed "video/mp2t"),
           mkWorld (cache w1) (calls w1)
             (spawned w1 ++ [mkProc (Part002.ffmpeg_args (js_str (url f)) NaN 10 false)])%list
             (now w1))).
Proof.
  split; [|split; [|split; [|split]]].
  - intros u Hu Hx. unfold IndexJs.runFFmpeg, bind, get_now, check_expired.
    rewrite Hu. unfold ret. rewrite Hx. unfold spawn. rewrite Hu. reflexivity.
  - intros u Hu Hx Hv. cbv zeta.
    unfold IndexJs.runFFmpeg, bind, get_now, check_expired. rewrite Hu. unfold ret at 1.
    rewrite Hx.
    unfold IndexJs.getVideoFormats. rewrite Hv. simpl negb. cbv iota.
    unfold fetchYouTubeData, ret, bind. simpl.
    destruct (up (length (calls w)) (watch_url videoId)) as [d|m]; simpl.
    + destruct (List.find (IndexJs.same_format format) (valid_formats (formats d)));
        simpl; auto.
    + auto.
  - intros Hu. unfold IndexJs.runFFmpeg, bind, get_now, check_expired.
    rewrite Hu. reflexivity.
  - intros segNum w1 data f Hg Hf. unfold Part002.asegment_route, catch500, bind.
    rewrite Hg, Hf. reflexivity.
  - intros seg c q w1 data f Hp Hg Hf. unfold Part002.segment_request. rewrite Hp.
    cbn [option_map]. unfold Part002.segment_route, catch500, bind.
    rewrite Hg, Hf. reflexivity.
Qed.

(** A run of [runFFmpeg_refresh] at the fixtures: a fresh URL is passed
    as is; a stale one refreshed against [stale_upstream] stays stale. *)
Lemma runFFmpeg_refresh_witness :
  IndexJs.isUrlExpired t0 "https://x/?expire=9999999999" = false /\
  IndexJs.runFFmpeg scenario_upstream "tTPk-fSx5gc" fresh_720p (Fin 0) 10 false empty_world =
    (Ok tt, mkWorld empty [] [mkProc (IndexJs.ffmpeg_args "https://x/?expire=9999999999" (Fin 0) 10 false)] t0) /\
  IndexJs.isUrlExpired t0 "https://x/?expire=1" = true /\ valid_id "tTPk-fSx5gc" = true /\
  calls (snd (IndexJs.runFFmpeg stale_upstream "tTPk-fSx5gc" stale_720p (Fin 0) 10 false empty_world))
    = [watch_url "tTPk-fSx5gc"].
Proof.
  destruct (runFFmpeg_refresh scenario_upstream "tTPk-fSx5gc" fresh_720p (Fin 0) 10 false
              (@empty_world Media)) as [H1 _].
  destruct (runFFmpeg_refresh stale_upstream "tTPk-fSx5gc" stale_720p (Fin 0) 10 false
              (@empty_world Media)) as [_ [H2 _]].
  assert (E1 : IndexJs.isUrlExpired t0 "https://x/?expire=9999999999" = false) by (vm_compute; reflexivity).
  assert (E2 : IndexJs.isUrlExpired t0 "https://x/?expire=1" = true) by (vm_compute; reflexivity).
  assert (V : valid_id "tTPk-fSx5gc" = true) by (vm_compute; reflexivity).
  split; [exact E1|]. split; [exact (H1 _ eq_refl E1)|].
  split; [exact E2|]. split; [exact V|].
  exact (proj1 (H2 _ eq_refl E2 V)).
Defined.

End Refresh.

(** ** Kill on disconnect *)

Module Disconnect.
Import Lifecycle.

(** Claim C2 (code bug). The kill-on-close listener is registered only
    after [spawn], itself after the awaits of the handler
    ([src/index.js] l.263, l.90 and l.133). A ['close'] event delivered
    while the handler is suspended, e.g. during the forced refresh of an
    expired URL or the upstream request on a cache miss, finds no
    listener, and the [ffmpeg] spawned afterwards is never killed. A close
    after the spawn does kill it. The same holds for the single-quality
    servers ([part_000], [part_001]) and [part_002] on a cache miss. *)
Theorem close_during_await_orphans :
  run (index_segment false true) (Some 0%nat) init = mkPState (Some Running) true true /\
  run (index_segment true false) (Some 0%nat) init = mkPState (Some Running) true true /\
  run (index_segment true true) (Some 1%nat) init = mkPState (Some Running) true true /\
  run (single_segment true) (Some 0%nat) init = mkPState (Some Running) true true /\
  run (part002_segment true) (Some 0%nat) init = mkPState (Some Running) true true /\
  run (index_segment false true) (Some 1%nat) init = mkPState (Some Killed) true true /\
  run (index_segment false false) (Some 0%nat) init = mkPState (Some Killed) true true.
Proof. repeat split. Qed.

End Disconnect.
(** ** The batch server of [part_000] *)

Module BatchFacts.
Import JS Model StringFacts Batch.

Lemma fetch_loop_ok (up : Upstream) (u : string) (retries : nat) :
  forall k i (w : World Meta) j d,
  (i + k = retries)%nat -> (j < k)%nat ->
  (forall m, (m < j)%nat -> exists e, up (length (calls w) + m)%nat u = Err e) ->
  up (length (calls w) + j)%nat u = Ok d ->
  fetch_loop up u retries i k w =
  (Ok (Some d), mkWorld (cache w) (calls w ++ repeat u (S j)) (spawned w) (now w)).
Proof.
  induction k as [|k IH]; intros i w j d Hik Hj Hpre Hd; [lia|].
  cbn [fetch_loop]. destruct j as [|j].
  - rewrite Nat.add_0_r in Hd. rewrite Hd. reflexivity.
  - destruct (Hpre 0%nat ltac:(lia)) as [e0 H0]. rewrite Nat.add_0_r in H0. rewrite H0.
    assert (Hi : (i =? retries - 1)%nat = false) by (apply Nat.eqb_neq; lia).
    rewrite Hi.
    rewrite (IH (S i) _ j d); cbn [calls cache spawned now]; try lia.
    + rewrite <- app_assoc. reflexivity.
    + intros m Hm. rewrite length_app. cbn [length].
      replace (length (calls w) + 1 + m)%nat with (length (calls w) + S m)%nat by lia.
      apply Hpre. lia.
    + rewrite length_app. cbn [length].
      replace (length (calls w) + 1 + j)%nat with (length (calls w) + S j)%nat by lia.
      exact Hd.
Qed.

Lemma fetch_loop_fail (up : Upstream) (u : string) (retries : nat) :
  forall k i (w : World Meta) e,
  (i + k = retries)%nat -> (1 <= k)%nat ->
  (forall m, (m < k - 1)%nat -> exists e', up (length (calls w) + m)%nat u = Err e') ->
  up (length (calls w) + (k - 1))%nat u = Err e ->
  fetch_loop up u retries i k w =
  (Err ("API request failed: " ++ e),
   mkWorld (cache w) (calls w ++ repeat u k) (spawned w) (now w)).
Proof.
  induction k as [|k IH]; intros i w e Hik Hk Hf He; [lia|].
  cbn [fetch_loop]. destruct k as [|k].
  - rewrite Nat.add_0_r in He. cbn in He. rewrite He.
    assert (Hi : (i =? retries - 1)%nat = true) by (apply Nat.eqb_eq; lia).
    rewrite Hi. reflexivity.
  - destruct (Hf 0%nat ltac:(lia)) as [e0 H0].
    rewrite Nat.add_0_r in H0. rewrite H0.
    assert (Hi : (i =? retries - 1)%nat = false) by (apply Nat.eqb_neq; lia).
    rewrite Hi.
    rewrite (IH (S i) _ e); cbn [calls cache spawned now]; try lia.
    + rewrite <- app_assoc. reflexivity.
    + intros m Hm. rewrite length_app. cbn [length].
      replace (length (calls w) + 1 + m)%nat with (length (calls w) + S m)%nat by lia.
      apply Hf. lia.
    + rewrite length_app. cbn [length].
      replace (length (calls w) + 1 + (S k - 1))%nat with (length (calls w) + (S (S k) - 1))%nat by lia.
      exact He.
Qed.

Lemma fetch_loop_frame (up : Upstream) (u : string) (retries : nat) :
  forall k i (w : World Meta),
  let w' := snd (fetch_loop up u retries i k w) in
  cache w' = cache w /\ spawned w' = spawned w /\ now w' = now w /\
  exists n, calls w' = (calls w ++ repeat u n)%list.
Proof.
  induction k as [|k IH]; intros i w; cbn [fetch_loop].
  - refine (conj eq_refl (conj eq_refl (conj eq_refl _))).
    exists 0%nat. cbn. rewrite app_nil_r. reflexivity.
  - destruct (up (length (calls w)) u); cbn [snd].
    + refine (conj eq_refl (conj eq_refl (conj eq_refl _))). exists 1%nat. reflexivity.
    + destruct (i =? retries - 1)%nat; cbn [snd].
      * refine (conj eq_refl (conj eq_refl (conj eq_refl _))). exists 1%nat. reflexivity.
      * destruct (IH (S i) (mkWorld (cache w) (calls w ++ [u]) (spawned w) (now w)))
          as (Hc & Hs & Hn & m & Hm).
        cbn [cache spawned now calls] in *.
        refine (conj Hc (conj Hs (conj Hn _))).
        exists (S m). rewrite Hm, <- app_assoc. reflexivity.
Qed.

(** [fetchYouTubeData(url, retries)] of [part_000] (l.32-71) calls the
    API at most [retries] times: it returns the first success, after
    exactly the failed attempts before it; after [retries] failures it
    throws [API request failed: <m>], [m] the message of the last
    failure; with [retries = 0] it returns [undefined] without any call.
    It touches neither the cache nor the processes. *)
Theorem fetchYouTubeData_retries (up : Upstream) (u : string) (retries : nat) (w : World Meta) :
  (forall j d, (j < retries)%nat ->
     (forall m, (m < j)%nat -> exists e, up (length (calls w) + m)%nat u = Err e) ->
     up (length (calls w) + j)%nat u = Ok d ->
     fetchYouTubeData up u retries w =
     (Ok (Some d), mkWorld (cache w) (calls w ++ repeat u (S j)) (spawned w) (now w))) /\
  (forall e, (1 <= retries)%nat ->
     (forall m, (m < retries - 1)%nat -> exists e', up (length (calls w) + m)%nat u = Err e') ->
     up (length (calls w) + (retries - 1))%nat u = Err e ->
     fetchYouTubeData up u retries w =
     (Err ("API request failed: " ++ e),
      mkWorld (cache w) (calls w ++ repeat u retries) (spawned w) (now w))) /\
  fetchYouTubeData up u 0 w = (Ok None, w).
Proof.
  split; [|split].
  - intros j d Hj Hpre Hd. apply (fetch_loop_ok up u retries retries 0 w j d); auto.
  - intros e H1 Hf He. apply (fetch_loop_fail up u retries retries 0 w e); auto.
  - reflexivity.
Qed.

(** At the fixtures: a first call that succeeds, and an upstream that is
    down, called three times. *)
Lemma fetchYouTubeData_retries_witness :
  fetchYouTubeData Fixtures.scenario_upstream Fixtures.watch_tTPk 3 (@Fixtures.empty_world Meta) =
    (Ok (Some (mkMedia "T" "" 125 [Fixtures.fresh_720p])),
     mkWorld empty [Fixtures.watch_tTPk] [] Fixtures.t0) /\
  fetchYouTubeData Fixtures.down_upstream Fixtures.watch_tTPk 3 (@Fixtures.empty_world Meta) =
    (Err "API request failed: Request failed with status code 503",
     mkWorld empty [Fixtures.watch_tTPk; Fixtures.watch_tTPk; Fixtures.watch_tTPk] [] Fixtures.t0).
Proof.
  destruct (fetchYouTubeData_retries Fixtures.scenario_upstream Fixtures.watch_tTPk 3
              (@Fixtures.empty_world Meta)) as [H1 _].
  destruct (fetchYouTubeData_retries Fixtures.down_upstream Fixtures.watch_tTPk 3
              (@Fixtures.empty_world Meta)) as [_ [H2 _]].
  split.
  - apply (H1 0%nat); [lia|intros m Hm; lia|reflexivity].
  - apply H2; [lia|intros m Hm; eexists; reflexivity|reflexivity].
Defined.

Lemma append_empty_r (s : string) : s ++ "" = s.
Proof. induction s as [|c s IH]; [reflexivity|cbn; rewrite IH; reflexivity]. Qed.

Lemma non_amp_prefix_app (a b : string) :
  includes a "&" = false -> non_amp_prefix (a ++ b) = a ++ non_amp_prefix b.
Proof.
  induction a as [|c a IH]; intros H; [reflexivity|].
  rewrite includes_unfold in H. cbn [strip_prefix] in H.
  destruct (Ascii.eqb "&" c) eqn:E; [discriminate|].
  cbn. rewrite Ascii.eqb_sym, E. f_equal. apply IH. exact H.
Qed.

Lemma match_v_skip (c : ascii) (p : string) :
  Ascii.eqb c "?" = false -> Ascii.eqb c "&" = false -> match_v (String c p) = match_v p.
Proof. intros H1 H2. cbn [match_v]. rewrite H1, H2. reflexivity. Qed.

Lemma all_id_chars_no_amp (s : string) : all_id_chars s = true -> includes s "&" = false.
Proof.
  induction s as [|c s IH]; intros H; [reflexivity|].
  cbn [all_id_chars] in H. apply andb_true_iff in H as [Hc Hs].
  rewrite includes_unfold. cbn [strip_prefix].
  destruct (Ascii.eqb "&" c) eqn:E.
  - apply Ascii.eqb_eq in E. subst c. discriminate Hc.
  - apply IH. exact Hs.
Qed.

(** [/[?&]v=([^&]+)/] extracts [v] from any URL [p?v=<v>] whose prefix
    [p] has no [?] or [&], followed by the end or by more parameters
    ([&...]); in particular it extracts every valid identifier from its
    watch URL [https://www.youtube.com/watch?v=<id>]. *)
Theorem match_v_watch_url :
  (forall p v rest,
     includes p "?" = false -> includes p "&" = false ->
     v <> EmptyString -> includes v "&" = false ->
     (rest = EmptyString \/ exists r, rest = String "&" r) ->
     match_v (p ++ "?v=" ++ v ++ rest) = Some v) /\
  (forall v, valid_id v = true -> match_v (watch_url v) = Some v).
Proof.
  assert (Base : forall v rest, v <> EmptyString -> includes v "&" = false ->
            (rest = EmptyString \/ exists r, rest = String "&" r) ->
            match_v ("?v=" ++ v ++ rest) = Some v).
  { intros v rest Hv Ha Hr.
    change ("?v=" ++ v ++ rest) with (String "?" ("v=" ++ (v ++ rest))).
    cbn [match_v]. rewrite strip_prefix_app. cbn [Ascii.eqb orb].
    rewrite (non_amp_prefix_app v rest Ha).
    assert (Hn : non_amp_prefix rest = EmptyString)
      by (destruct Hr as [->|(r & ->)]; reflexivity).
    rewrite Hn, append_empty_r. destruct v; [congruence|reflexivity]. }
  split.
  - intros p v rest Hq Ha Hv Hva Hr. induction p as [|c p IH].
    + exact (Base v rest Hv Hva Hr).
    + rewrite includes_unfold in Hq, Ha. cbn [strip_prefix] in Hq, Ha.
      destruct (Ascii.eqb "?" c) eqn:E1; [discriminate|].
      destruct (Ascii.eqb "&" c) eqn:E2; [discriminate|].
      change (String c p ++ "?v=" ++ v ++ rest) with (String c (p ++ "?v=" ++ v ++ rest)).
      rewrite match_v_skip by (rewrite Ascii.eqb_sym; assumption).
      apply IH; assumption.
  - intros v Hv. unfold valid_id in Hv. apply andb_true_iff in Hv as [Hl Hc].
    unfold watch_url.
    change ("https://www.youtube.com/watch?v=" ++ v)
      with ("https://www.youtube.com/watch" ++ String "?" (String "v" (String "=" v))).
    assert (Hrec : forall p, includes p "?" = false -> includes p "&" = false ->
              match_v (p ++ String "?" (String "v" (String "=" v))) = Some v).
    { intros p Hq Ha. induction p as [|c p IH].
      - rewrite <- (append_empty_r v) at 1.
        apply (Base v ""); [destruct v; discriminate|apply all_id_chars_no_amp; exact Hc|left; reflexivity].
      - rewrite includes_unfold in Hq, Ha. cbn [strip_prefix] in Hq, Ha.
        destruct (Ascii.eqb "?" c) eqn:E1; [discriminate|].
        destruct (Ascii.eqb "&" c) eqn:E2; [discriminate|].
        change (String c p ++ String "?" (String "v" (String "=" v)))
          with (String c (p ++ String "?" (String "v" (String "=" v)))).
        rewrite match_v_skip by (rewrite Ascii.eqb_sym; assumption).
        apply IH; assumption. }
    apply Hrec; reflexivity.
Qed.

Lemma match_v_watch_url_witness :
  match_v ("https://www.youtube.com/watch" ++ "?v=" ++ "tTPk-fSx5gc" ++ "&t=42") = Some "tTPk-fSx5gc" /\
  match_v (watch_url "tTPk-fSx5gc") = Some "tTPk-fSx5gc".
Proof.
  destruct match_v_watch_url as [H1 H2]. split.
  - apply H1; [reflexivity|reflexivity|discriminate|reflexivity|right; eexists; reflexivity].
  - apply H2. reflexivity.
Defined.

Lemma process_route_effects_core (videoDir : string -> Path) (up : Upstream) (tr : Transcoder)
    (u : string) (q : option string) (s : BWorld) (v : string) :
  match_v u = Some v ->
  let r := process_route videoDir up tr (Some u) q s in
  now (bw (snd r)) = now (bw s) /\
  ((spawned (bw (snd r)) = spawned (bw s) /\ outputs (snd r) = outputs s) \/
   (~ (videoDir v ∈ outputs s) /\
    exists fu, spawned (bw (snd r)) = (spawned (bw s) ++ [mkProc [fu; path_str (videoDir v)]])%list /\
      (outputs (snd r) = {[videoDir v]} ∪ outputs s \/
       (fst r = Ok (BError 500 "Internal server error") /\
        outputs (snd r) = filter (fun o => ¬ (videoDir v `prefix_of` o)) (outputs s))))) /\
  (forall o, ~ (videoDir v `prefix_of` o) -> (o ∈ outputs (snd r) <-> o ∈ outputs s)) /\
  (forall su m, fst r = Ok (ProcessJson v su false m) ->
     videoDir v ∈ outputs (snd r) /\
     cache (bw (snd r)) !! v = Some (m, (now (bw s) + stdTTL * 1000)%Z)).
Proof.
  intros Hm. destruct u as [|c u']; [discriminate|].
  destruct s as [w o]. cbn [bw outputs].
  unfold process_route, catch_internal, bbind, lift, bret, bthrow.
  rewrite Hm. cbn [bw outputs].
  unfold cache_get.
  destruct (cache w !! v) as [[m0 t0]|] eqn:Hc; [destruct (now w <=? t0)%Z eqn:Ht|].
  1: { cbn. refine (conj eq_refl (conj (or_introl (conj eq_refl eq_refl))
                                   (conj (fun _ _ => iff_refl _) _))).
    intros su m H. discriminate H. }
  all: cbn [bw outputs fst snd]; unfold fetchYouTubeData;
    match goal with |- context [fetch_loop ?up ?u ?r ?i ?k ?w1] =>
      pose proof (fetch_loop_frame up u r k i w1) as Fr;
      destruct (fetch_loop up u r i k w1) as [fr w2] eqn:Ef
    end;
    cbn [snd cache spawned now] in Fr; destruct Fr as (Fc & Fs & Fn & Fk);
    destruct fr as [[d|]|e]; cbn [fst snd bw outputs];
    [destruct (Single.select_format _ (formats d)) as [f|]; cbn [fst snd bw outputs]| |].
  all: try (refine (conj Fn (conj (or_introl (conj Fs eq_refl))
                                  (conj (fun _ _ => iff_refl _) _)));
            intros ? ? H; discriminate H).
  all: unfold convertToHLS, cache_set; cbn [bw outputs];
    destruct (decide (videoDir v ∈ o)) as [Hin|Hout]; [| destruct (tr (url f))];
    cbn [fst snd bw outputs cache spawned now calls].
  all: rewrite Fn, Fs; split; [reflexivity|].
  all: first
    [ refine (conj (or_introl (conj eq_refl eq_refl)) (conj (fun _ _ => iff_refl _) _));
      intros ? ? H; injection H as _ <-; split; [exact Hin|apply lookup_insert_eq]
    | split;
      [ right; split; [exact Hout|]; eexists; split; [reflexivity|right; split; reflexivity]
      | split; [|intros ? ? H; discriminate H];
        intros o' Ho'; rewrite elem_of_filter; tauto ]
    | split;
      [ right; split; [exact Hout|]; eexists; split; [reflexivity|left; reflexivity]
      | split;
        [ intros o' Ho'; rewrite elem_of_union, elem_of_singleton; split; [|tauto];
          intros [->|H]; [exfalso; apply Ho'; reflexivity|exact H]
        | intros ? ? H; injection H as _ <-; split; [set_solver|apply lookup_insert_eq] ] ] ].
Qed.

(** [POST /api/process] for a URL whose identifier is [v]
    ([path.join(HLS_DIR, v)] being [videoDir v]): the clock is untouched;
    either nothing is started and the outputs stay as they were, or [v]'s
    directory had no [master.m3u8] and exactly one conversion into it is
    started, after which either its playlist exists or the request fails
    with [500 Internal server error] having deleted every output under
    [videoDir v]; outputs outside [videoDir v] never change. A fresh
    success ([cached: false]) leaves [v]'s playlist in place and [v]'s
    metadata cached for 24 h. *)
Theorem process_route_effects (videoDir : string -> Path) (up : Upstream) (tr : Transcoder)
    (u : string) (q : option string) (s : BWorld) (v : string) :
  match_v u = Some v ->
  let r := process_route videoDir up tr (Some u) q s in
  now (bw (snd r)) = now (bw s) /\
  ((spawned (bw (snd r)) = spawned (bw s) /\ outputs (snd r) = outputs s) \/
   (~ (videoDir v ∈ outputs s) /\
    exists fu, spawned (bw (snd r)) = (spawned (bw s) ++ [mkProc [fu; path_str (videoDir v)]])%list /\
      (outputs (snd r) = {[videoDir v]} ∪ outputs s \/
       (fst r = Ok (BError 500 "Internal server error") /\
        outputs (snd r) = filter (fun o => ¬ (videoDir v `prefix_of` o)) (outputs s))))) /\
  (forall o, ~ (videoDir v `prefix_of` o) -> (o ∈ outputs (snd r) <-> o ∈ outputs s)) /\
  (forall su m, fst r = Ok (ProcessJson v su false m) ->
     videoDir v ∈ outputs (snd r) /\
     cache (bw (snd r)) !! v = Some (m, (now (bw s) + stdTTL * 1000)%Z)).
Proof. exact (process_route_effects_core videoDir up tr u q s v). Qed.

(** At a URL whose [v] parameter is [..]: [path.join(HLS_DIR, '..')] is
    [/srv], so a failed conversion deletes the playlist of
    [tTPk-fSx5gc]. *)
Lemma process_route_effects_witness :
  let u := "https://youtu.be/tTPk-fSx5gc?v=.." in
  let s := mkBWorld Fixtures.empty_world {[Fixtures.hls_dir "tTPk-fSx5gc"]} in
  let r := process_route Fixtures.hls_dir Fixtures.scenario_upstream Fixtures.transcode_fail
             (Some u) None s in
  match_v u = Some ".." /\ Fixtures.hls_dir ".." = ["srv"] /\
  bool_decide (Fixtures.hls_dir "tTPk-fSx5gc" ∈ outputs (snd r)) = false /\
  (now (bw (snd r)) = now (bw s) /\
  ((spawned (bw (snd r)) = spawned (bw s) /\ outputs (snd r) = outputs s) \/
   (~ (Fixtures.hls_dir ".." ∈ outputs s) /\
    exists fu, spawned (bw (snd r)) = (spawned (bw s) ++ [mkProc [fu; path_str (Fixtures.hls_dir "..")]])%list /\
      (outputs (snd r) = {[Fixtures.hls_dir ".."]} ∪ outputs s \/
       (fst r = Ok (BError 500 "Internal server error") /\
        outputs (snd r) = filter (fun o => ¬ (Fixtures.hls_dir ".." `prefix_of` o)) (outputs s))))) /\
  (forall o, ~ (Fixtures.hls_dir ".." `prefix_of` o) -> (o ∈ outputs (snd r) <-> o ∈ outputs s)) /\
  (forall su m, fst r = Ok (ProcessJson ".." su false m) ->
     Fixtures.hls_dir ".." ∈ outputs (snd r) /\
     cache (bw (snd r)) !! ".." = Some (m, (now (bw s) + stdTTL * 1000)%Z))).
Proof.
  intros u s r.
  assert (H : match_v u = Some "..") by reflexivity.
  split; [exact H|]. split; [reflexivity|]. split; [vm_compute; reflexivity|].
  exact (process_route_effects Fixtures.hls_dir Fixtures.scenario_upstream Fixtures.transcode_fail
           u None s ".." H).
Defined.

Lemma process_route_hit (videoDir : string -> Path) (up : Upstream) (tr : Transcoder)
    (u : string) (q : option string) (s : BWorld) (v : string) (m : Meta) (t : Z) :
  match_v u = Some v -> cache (bw s) !! v = Some (m, t) -> (now (bw s) <= t)%Z ->
  process_route videoDir up tr (Some u) q s = (Ok (ProcessJson v (stream_url v) true m), s).
Proof.
  intros Hm Hc Ht. destruct u as [|c u']; [discriminate|]. destruct s as [w o].
  cbn [bw outputs] in Hc, Ht.
  unfold process_route, catch_internal, bbind, lift, bret. rewrite Hm.
  cbn [bw outputs]. unfold cache_get. rewrite Hc. apply Z.leb_le in Ht. rewrite Ht.
  reflexivity.
Qed.

Definition bat_time (s : BWorld) (t : Z) : BWorld :=
  mkBWorld (mkWorld (cache (bw s)) (calls (bw s)) (spawned (bw s)) t) (outputs s).

(** The batch cache is keyed by the video identifier alone: a live entry
    answers [cached: true] with no effect, whatever the URL form and the
    requested quality; after a fresh success, any request for the same
    identifier within the next 24 h, with any quality, is answered from
    the cache. *)
Theorem process_route_cache_by_id (videoDir : string -> Path) (up : Upstream) (tr : Transcoder) :
  (forall u q s v m t,
     match_v u = Some v -> cache (bw s) !! v = Some (m, t) -> (now (bw s) <= t)%Z ->
     process_route videoDir up tr (Some u) q s = (Ok (ProcessJson v (stream_url v) true m), s)) /\
  (forall u u' q q' s v su m t',
     match_v u = Some v -> match_v u' = Some v ->
     fst (process_route videoDir up tr (Some u) q s) = Ok (ProcessJson v su false m) ->
     (t' <= now (bw s) + stdTTL * 1000)%Z ->
     let s1 := bat_time (snd (process_route videoDir up tr (Some u) q s)) t' in
     process_route videoDir up tr (Some u') q' s1 = (Ok (ProcessJson v (stream_url v) true m), s1)).
Proof.
  split.
  - intros u q s v m t. apply process_route_hit.
  - intros u u' q q' s v su m t' Hm Hm' Hok Ht s1.
    destruct (process_route_effects_core videoDir up tr u q s v Hm) as (_ & _ & _ & Hpost).
    destruct (Hpost su m Hok) as [_ Hc].
    apply (process_route_hit videoDir up tr u' q' s1 v m (now (bw s) + stdTTL * 1000)%Z Hm').
    + exact Hc.
    + exact Ht.
Qed.

Lemma process_route_cache_by_id_witness :
  let s1 := bat_time (snd (process_route Fixtures.hls_dir Fixtures.scenario_upstream
              Fixtures.transcode_ok (Some Fixtures.watch_tTPk) None Fixtures.empty_bworld))
              (Fixtures.t0 + 1000) in
  process_route Fixtures.hls_dir Fixtures.scenario_upstream Fixtures.transcode_ok
    (Some "https://m.youtube.com/watch?feature=share&v=tTPk-fSx5gc") (Some "1080p") s1
  = (Ok (ProcessJson "tTPk-fSx5gc" (stream_url "tTPk-fSx5gc") true (mkMeta "T" "" 125)), s1).
Proof.
  apply (proj2 (process_route_cache_by_id Fixtures.hls_dir Fixtures.scenario_upstream
                  Fixtures.transcode_ok) _ _ _ _ _ _ (stream_url "tTPk-fSx5gc"));
    [reflexivity|reflexivity|vm_compute; reflexivity|vm_compute; discriminate].
Defined.

(** When the identifier has no live cache entry and the API fails three
    times, [POST /api/process] answers [500 Internal server error] after
    exactly three calls, starts no conversion, leaves the outputs as they
    were and caches nothing for the identifier. *)
Theorem process_route_upstream_down (videoDir : string -> Path) (up : Upstream) (tr : Transcoder)
    (u : string) (q : option string) (s : BWorld) (v : string) :
  match_v u = Some v ->
  (forall m t, cache (bw s) !! v = Some (m, t) -> (t < now (bw s))%Z) ->
  (forall j, (j < 3)%nat -> exists e, up (length (calls (bw s)) + j)%nat u = Err e) ->
  let r := process_route videoDir up tr (Some u) q s in
  fst r = Ok (BError 500 "Internal server error") /\
  calls (bw (snd r)) = (calls (bw s) ++ [u; u; u])%list /\
  spawned (bw (snd r)) = spawned (bw s) /\
  outputs (snd r) = outputs s /\
  cache (bw (snd r)) !! v = None.
Proof.
  intros Hm Hl Hf. destruct u as [|c u']; [discriminate|]. destruct s as [w o].
  cbn [bw outputs] in *.
  destruct (Hf 2%nat ltac:(lia)) as [e He].
  unfold process_route, catch_internal, bbind, lift, bret, bthrow. rewrite Hm.
  cbn [bw outputs]. unfold cache_get, fetchYouTubeData.
  destruct (cache w !! v) as [[m0 t0]|] eqn:Hc.
  - specialize (Hl m0 t0 eq_refl).
    assert (Hb : (now w <=? t0)%Z = false) by (apply Z.leb_gt; lia). rewrite Hb.
    rewrite (fetch_loop_fail up (String c u') 3 3 0 _ e); cbn [calls]; try lia;
      [| intros m0' Hm0'; apply Hf; lia | exact He].
    cbn. repeat split. apply lookup_delete_eq.
  - rewrite (fetch_loop_fail up (String c u') 3 3 0 _ e); cbn [calls]; try lia;
      [| intros m0' Hm0'; apply Hf; lia | exact He].
    cbn. repeat split. exact Hc.
Qed.

Lemma process_route_upstream_down_witness :
  let r := process_route Fixtures.hls_dir Fixtures.down_upstream Fixtures.transcode_ok
             (Some Fixtures.watch_tTPk) None Fixtures.empty_bworld in
  fst r = Ok (BError 500 "Internal server error") /\
  calls (bw (snd r)) = [Fixtures.watch_tTPk; Fixtures.watch_tTPk; Fixtures.watch_tTPk].
Proof.
  destruct (process_route_upstream_down Fixtures.hls_dir Fixtures.down_upstream Fixtures.transcode_ok
              Fixtures.watch_tTPk None Fixtures.empty_bworld "tTPk-fSx5gc")
    as (H1 & H2 & _);
    [reflexivity|intros m t E; discriminate E|intros j _; eexists; reflexivity|].
  exact (conj H1 H2).
Defined.


(** [GET /api/info/:videoId] of the batch server only reads the cache: no
    call, no conversion, no output change; it answers the metadata
    exactly when a live entry exists, and [404 Video info not found]
    exactly when none does. *)
Theorem info_route_cache_only (v : string) (s : BWorld) :
  let r := info_route v s in
  calls (bw (snd r)) = calls (bw s) /\ spawned (bw (snd r)) = spawned (bw s) /\
  outputs (snd r) = outputs s /\
  (forall m, fst r = Ok (InfoMeta m) <->
     exists t, cache (bw s) !! v = Some (m, t) /\ (now (bw s) <= t)%Z) /\
  (fst r = Ok (BError 404 "Video info not found") <->
     forall m t, cache (bw s) !! v = Some (m, t) -> (t < now (bw s))%Z).
Proof.
  destruct s as [w o]. unfold info_route, catch_internal, bbind, lift, bret, cache_get.
  cbn [bw outputs].
  destruct (cache w !! v) as [[m0 t0]|] eqn:Hc; [destruct (now w <=? t0)%Z eqn:Ht|];
  cbn; (split; [reflexivity|split; [reflexivity|split; [reflexivity|split]]]).
  - intros m. split.
    + intros H. injection H as <-. exists t0. split; [reflexivity|]. apply Z.leb_le. exact Ht.
    + intros (t & E & _). injection E as <- _. reflexivity.
  - split; [discriminate|]. intros H. specialize (H m0 t0 eq_refl). apply Z.leb_le in Ht. lia.
  - intros m. split; [discriminate|]. intros (t & E & Hle). injection E as <- <-.
    apply Z.leb_gt in Ht. lia.
  - split; [intros _ m t E; injection E as <- <-; apply Z.leb_gt; exact Ht|reflexivity].
  - intros m. split; [discriminate|]. intros (t & E & _). discriminate E.
  - split; [intros _ m t E; discriminate E|reflexivity].
Qed.

Lemma info_route_cache_only_witness :
  fst (info_route "tTPk-fSx5gc" Fixtures.empty_bworld) = Ok (BError 404 "Video info not found").
Proof.
  destruct (info_route_cache_only "tTPk-fSx5gc" Fixtures.empty_bworld) as (_ & _ & _ & _ & H).
  apply H. intros m t E. discriminate E.
Defined.

End BatchFacts.

(** ** Numbers and durations *)

Module NumberFacts.
Import JS Model Manifest.
Local Open Scope Z_scope.

(** [isUrlExpired] only flips one way: a URL expired for a margin and an
    instant stays expired for any larger margin ([part_000]'s 30 min
    against the others' 5 min) and at any later instant. *)
Theorem isUrlExpired_monotone (m m' t t' : Z) (u : string) :
  (m <= m')%Z -> (t <= t')%Z ->
  isUrlExpired_m m t u = true -> isUrlExpired_m m' t' u = true.
Proof.
  unfold isUrlExpired_m. destruct (find_expire u) as [d|]; [|auto].
  rewrite !Z.leb_le. lia.
Qed.

Lemma isUrlExpired_monotone_witness :
  isUrlExpired_m margin_part000 Fixtures.t0 "https://x/?expire=1" = true.
Proof.
  apply (isUrlExpired_monotone margin_index margin_part000 Fixtures.t0 Fixtures.t0);
    [vm_compute; discriminate|lia|vm_compute; reflexivity].
Defined.

Lemma append_assoc_str (a b c : string) : a ++ (b ++ c) = (a ++ b) ++ c.
Proof. induction a as [|x a IH]; [reflexivity|cbn; rewrite IH; reflexivity]. Qed.

Lemma append_empty_r_str (s : string) : s ++ "" = s.
Proof. induction s as [|x s IH]; [reflexivity|cbn; rewrite IH; reflexivity]. Qed.

Lemma length_append_str (a b : string) :
  String.length (a ++ b) = (String.length a + String.length b)%nat.
Proof. induction a as [|x a IH]; [reflexivity|cbn; rewrite IH; reflexivity]. Qed.

Lemma digits_value_aux_app (a b : string) (v : Z) :
  digits_value_aux (a ++ b) v = digits_value_aux b (digits_value_aux a v).
Proof. revert v. induction a as [|c a IH]; intros v; [reflexivity|apply IH]. Qed.

Fixpoint all_digits (s : string) : bool :=
  match s with
  | EmptyString => true
  | String c s' => is_digit c && all_digits s'
  end.

Lemma all_digits_app (a b : string) :
  all_digits (a ++ b) = all_digits a && all_digits b.
Proof. induction a as [|c a IH]; [reflexivity|cbn; rewrite IH, andb_assoc; reflexivity]. Qed.

Lemma digits_prefix_all (s : string) : all_digits s = true -> digits_prefix s = s.
Proof.
  induction s as [|c s IH]; [reflexivity|].
  cbn. intros H. apply andb_true_iff in H as [Hc Hs]. rewrite Hc, IH; auto.
Qed.

Lemma digit_char (n : Z) :
  (0 <= n < 10)%Z ->
  let c := ascii_of_nat (48 + Z.to_nat n) in
  is_digit c = true /\ (Z.of_nat (nat_of_ascii c) - 48 = n)%Z.
Proof.
  intros Hn c. unfold c.
  rewrite nat_ascii_embedding by lia. unfold is_digit.
  rewrite nat_ascii_embedding by lia.
  split; [apply andb_true_iff; split; apply Nat.leb_le; lia|lia].
Qed.

Lemma digits_aux_S (f : nat) (n : Z) (acc : string) :
  digits_aux (S f) n acc =
  let acc' := String (ascii_of_nat (48 + Z.to_nat (n mod 10))) acc in
  if (n <? 10)%Z then acc' else digits_aux f (n / 10) acc'.
Proof. reflexivity. Qed.

Lemma digits_aux_spec (fuel : nat) :
  forall (n : Z) (acc : string), (0 <= n < 10 ^ Z.of_nat (S fuel))%Z ->
  exists ds, digits_aux (S fuel) n acc = ds ++ acc /\ ds <> EmptyString /\
             all_digits ds = true /\
             forall v, digits_value_aux ds v = (v * 10 ^ Z.of_nat (String.length ds) + n)%Z.
Proof.
  induction fuel as [|f IH]; intros n acc Hn;
    rewrite digits_aux_S; cbv zeta;
    (assert (Hm : (0 <= n mod 10 < 10)%Z) by (apply Z.mod_pos_bound; lia));
    destruct (digit_char (n mod 10) Hm) as [Hd Hv];
    set (c := ascii_of_nat (48 + Z.to_nat (n mod 10))) in *;
    destruct (n <? 10)%Z eqn:Hlt.
  1,3: apply Z.ltb_lt in Hlt; exists (String c EmptyString);
       split; [reflexivity|split; [discriminate|split]];
       [cbn; rewrite Hd; reflexivity
       |intros v; cbn; rewrite Hv; rewrite Z.mod_small by lia; lia].
  - apply Z.ltb_ge in Hlt. cbn in Hn. lia.
  - apply Z.ltb_ge in Hlt.
    assert (Hf : (0 <= n / 10 < 10 ^ Z.of_nat (S f))%Z).
    { split; [apply Z.div_pos; lia|].
      rewrite (Nat2Z.inj_succ (S f)), Z.pow_succ_r in Hn by lia.
      apply Z.div_lt_upper_bound; lia. }
    destruct (IH (n / 10)%Z (String c acc) Hf) as (ds & Heq & Hne & Hall & Hval).
    exists (ds ++ String c EmptyString). rewrite Heq.
    split; [rewrite <- append_assoc_str; reflexivity|].
    split; [destruct ds; [congruence|discriminate]|split].
    + rewrite all_digits_app, Hall. cbn. rewrite Hd. reflexivity.
    + intros v. rewrite digits_value_aux_app, Hval. cbn. rewrite Hv.
      rewrite length_append_str. cbn [String.length].
      rewrite Nat.add_1_r, Nat2Z.inj_succ, Z.pow_succ_r by lia.
      pose proof (Z.div_mod n 10 ltac:(lia)). nia.
Qed.
Lemma Z_to_string_abs (z : Z) :
  exists ds, digits_aux (S (Z.to_nat (Z.log2 (Z.abs z)))) (Z.abs z) EmptyString = ds /\
             ds <> EmptyString /\ all_digits ds = true /\ digits_value ds = Z.abs z.
Proof.
  assert (Hb : (0 <= Z.abs z < 10 ^ Z.of_nat (S (Z.to_nat (Z.log2 (Z.abs z)))))%Z).
  { split; [lia|]. rewrite Nat2Z.inj_succ, Z2Nat.id by apply Z.log2_nonneg.
    destruct (Z.eq_dec (Z.abs z) 0) as [E|E].
    - rewrite E. cbn. lia.
    - destruct (Z.log2_spec (Z.abs z) ltac:(lia)) as [_ Hl].
      eapply Z.lt_le_trans; [exact Hl|].
      apply Z.pow_le_mono_l. lia. }
  destruct (digits_aux_spec _ (Z.abs z) EmptyString Hb) as (ds & Heq & Hne & Hall & Hval).
  exists ds. rewrite Heq, append_empty_r_str.
  split; [reflexivity|split; [exact Hne|split; [exact Hall|]]].
  unfold digits_value. rewrite Hval. lia.
Qed.

Lemma parseInt_digit_start (c : ascii) (r : string) :
  is_digit c = true -> parseInt (String c r) = parse_unsigned (String c r).
Proof. destruct c as [[] [] [] [] [] [] [] []]; intros H; try discriminate H; reflexivity. Qed.

Lemma parse_unsigned_digits (ds : string) :
  ds <> EmptyString -> all_digits ds = true -> parse_unsigned ds = Fin (digits_value ds).
Proof.
  intros Hne Hall. unfold parse_unsigned. rewrite digits_prefix_all by exact Hall.
  destruct ds; [congruence|reflexivity].
Qed.

Lemma parseInt_Z_to_string_exact (z : Z) : parseInt (Z_to_string z) = Fin z.
Proof.
  destruct (Z_to_string_abs z) as (ds & Heq & Hne & Hall & Hval).
  unfold Z_to_string. cbv zeta. rewrite Heq.
  destruct (z <? 0)%Z eqn:Hz.
  - apply Z.ltb_lt in Hz.
    change (parseInt ("-" ++ ds)) with
      (match parse_unsigned ds with NaN => NaN | Fin z => Fin (- z) end).
    rewrite parse_unsigned_digits by assumption. f_equal. lia.
  - apply Z.ltb_ge in Hz. destruct ds as [|c r]; [congruence|].
    assert (Hc : is_digit c = true)
      by (cbn [all_digits] in Hall; apply andb_true_iff in Hall as [Hc _]; exact Hc).
    rewrite parseInt_digit_start by exact Hc.
    rewrite parse_unsigned_digits by (try discriminate; assumption).
    f_equal. lia.
Qed.

(** [parseInt(String(z), 10) === z] for every integer [z] of magnitude
    at most [2^53] (where a double holds it exactly): the decimal
    rendering used in URIs and arguments parses back to the same
    integer. *)
Theorem parseInt_Z_to_string (z : Z) :
  (Z.abs z <= 2 ^ 53)%Z -> parseInt (Z_to_string z) = Fin z.
Proof. intros _. apply parseInt_Z_to_string_exact. Qed.

Lemma parseInt_Z_to_string_witness :
  parseInt (Z_to_string (-9007199254740992)) = Fin (-9007199254740992) /\
  parseInt (Z_to_string 12) = Fin 12.
Proof. split; apply parseInt_Z_to_string; lia. Defined.

Lemma Qfloor_unique (x : Q) (m : Z) :
  (inject_Z m <= x -> x < inject_Z (m + 1) -> Qfloor x = m)%Q.
Proof.
  intros H1 H2. pose proof (Qfloor_le x) as F1. pose proof (Qlt_floor x) as F2.
  assert (A : (m < Qfloor x + 1)%Z) by (rewrite Zlt_Qlt; eapply Qle_lt_trans; eassumption).
  assert (B : (Qfloor x < m + 1)%Z) by (rewrite Zlt_Qlt; eapply Qle_lt_trans; eassumption).
  lia.
Qed.

(** [n.toFixed(3)] for an integer [0 <= n < 2^53] is [String(n) + ".000"]. *)
Theorem toFixed3_integer (n : Z) :
  (0 <= n < 2 ^ 53)%Z -> toFixed3 (inject_Z n) = Z_to_string n ++ ".000".
Proof.
  intros [Hn _]. unfold toFixed3.
  destruct (Qlt_le_dec (inject_Z n) 0) as [H|H].
  - exfalso. change 0%Q with (inject_Z 0) in H. rewrite <- Zlt_Qlt in H. lia.
  - rewrite (Qfloor_unique _ (n * 1000)).
    + rewrite Z.div_mul, Z.mod_mul by lia. reflexivity.
    + rewrite inject_Z_mult. change (inject_Z 1000) with 1000%Q. lra.
    + rewrite inject_Z_plus, inject_Z_mult. change (inject_Z 1000) with 1000%Q.
      change (inject_Z 1) with 1%Q. lra.
Qed.

Lemma toFixed3_integer_witness :
  toFixed3 (inject_Z 10) = Z_to_string 10 ++ ".000" /\ toFixed3 (inject_Z 10) = "10.000".
Proof. split; [apply toFixed3_integer; lia|reflexivity]. Defined.

End NumberFacts.

(** ** Segment timing *)

Module DurationFacts.
Import JS Model Manifest NumberFacts.
Local Open Scope Q_scope.

Definition Qsum (l : list Q) : Q := fold_right Qplus 0 l.

Lemma Qsum_app (l1 l2 : list Q) : Qsum (l1 ++ l2) == Qsum l1 + Qsum l2.
Proof.
  unfold Qsum. induction l1 as [|x l1 IH]; cbn [app fold_right].
  - lra.
  - rewrite IH. lra.
Qed.

Lemma inject_nat_add (a b : nat) :
  inject_Z (Z.of_nat (a + b)) == inject_Z (Z.of_nat a) + inject_Z (Z.of_nat b).
Proof. rewrite Nat2Z.inj_add, inject_Z_plus. reflexivity. Qed.

Lemma inject_times10 (k : Z) : inject_Z (k * 10) == inject_Z k * 10.
Proof. rewrite inject_Z_mult. reflexivity. Qed.

(** While the segments stay inside the duration, each declares the full 10 s. *)
Lemma full_sum (d : Q) (len : nat) :
  forall start, inject_Z (Z.of_nat (start + len) * 10) <= d ->
  Qsum (map (segDur d 10) (seq start len)) == inject_Z (Z.of_nat len * 10).
Proof.
  induction len as [|len IH]; intros start H.
  - reflexivity.
  - unfold Qsum in *. cbn [seq map fold_right]. rewrite IH.
    + unfold segDur. rewrite Q.min_l.
      * rewrite !inject_times10. rewrite Nat2Z.inj_succ, <- Z.add_1_r, inject_Z_plus.
        change (inject_Z 1) with 1. change (inject_Z 10) with 10. lra.
      * rewrite inject_times10 in *. rewrite inject_nat_add in H.
        rewrite Nat2Z.inj_succ, <- Z.add_1_r, inject_Z_plus in H.
        change (inject_Z 1) with 1 in H. change (inject_Z 10) with 10.
        assert (0 <= inject_Z (Z.of_nat len))
          by (change 0 with (inject_Z 0); rewrite <- Zle_Qle; lia).
        lra.
    + rewrite Nat.add_succ_comm. exact H.
Qed.

Lemma segments_durations (d : Q) (sd : Z) (uri : nat -> string) :
  map fst (segments d sd uri) = map (segDur d sd) (seq 0 (Z.to_nat (numSegments d sd))).
Proof. unfold segments. rewrite map_map. reflexivity. Qed.

(** The declared durations of the segment loop add up to the media duration. *)
Theorem segments_total_duration (d : Q) (uri : nat -> string) :
  0 < d -> Qsum (map fst (segments d 10 uri)) == d.
Proof.
  intros Hd. rewrite segments_durations.
  pose proof (Playlist.numSegments_pos d Hd) as Hpos.
  pose proof (Playlist.last_segment_bounds d Hd) as [Hl1 Hl2].
  destruct (Z.to_nat (numSegments d 10)) as [|k] eqn:Hk; [lia|].
  assert (Ek : Z.of_nat k = (numSegments d 10 - 1)%Z) by lia.
  rewrite seq_S, map_app, Qsum_app, (full_sum d k 0).
  - unfold Qsum. cbn [map fold_right]. unfold segDur.
    cbn [Nat.add]. rewrite Ek, (Q.min_r _ _ Hl2). lra.
  - cbn [Nat.add]. rewrite Ek. lra.
Qed.

Lemma segments_total_duration_witness :
  (Qsum (map fst (segments 125 10 (variant_uri "tTPk-fSx5gc" "720p"))) == 125)%Q.
Proof. apply segments_total_duration. vm_compute. reflexivity. Defined.

Lemma firstn_seq_min (i : nat) : forall s n, firstn i (seq s n) = seq s (Nat.min i n).
Proof.
  induction i as [|i IH]; intros s n; [reflexivity|].
  destruct n as [|n]; [reflexivity|]. cbn. rewrite IH. reflexivity.
Qed.

(** Segment [i] of a playlist is announced under [String(i)]; the segment
    routes parse it back ([parseInt]) and seek to [i * 10], which is exactly
    the sum of the durations the playlist declares before segment [i]. *)
Theorem segment_seek_matches_playlist (d : Q) (uri : nat -> string) (i : nat) :
  0 < d -> (i < length (segments d 10 uri))%nat ->
  mul (parseInt (Z_to_string (Z.of_nat i))) 10 = Fin (Z.of_nat i * 10) /\
  Qsum (firstn i (map fst (segments d 10 uri))) == inject_Z (Z.of_nat i * 10).
Proof.
  intros Hd Hi. split; [rewrite parseInt_Z_to_string_exact; reflexivity|].
  rewrite Playlist.segments_length in Hi.
  pose proof (Playlist.last_segment_bounds d Hd) as [Hl1 _].
  rewrite segments_durations, firstn_map, firstn_seq_min, Nat.min_l by lia.
  apply full_sum. cbn [Nat.add].
  assert (Hle : inject_Z (Z.of_nat i * 10) <= inject_Z ((numSegments d 10 - 1) * 10))
    by (rewrite <- Zle_Qle; lia).
  lra.
Qed.

Lemma segment_seek_matches_playlist_witness :
  mul (parseInt (Z_to_string (Z.of_nat 12))) 10 = Fin (Z.of_nat 12 * 10) /\
  (Qsum (firstn 12 (map fst (segments 125 10 (variant_uri "tTPk-fSx5gc" "720p"))))
     == inject_Z (Z.of_nat 12 * 10))%Q.
Proof. apply segment_seek_matches_playlist; vm_compute; reflexivity. Defined.

(** With a duration [<= 0] the segment loop runs zero times: the playlist is
    the header followed by [#EXT-X-ENDLIST]. *)
Theorem playlist_nonpositive_duration (d : Q) (uri : nat -> string) :
  d <= 0 ->
  segments d 10 uri = [] /\
  playlist 10 (segments d 10 uri) = playlist_header 10 ++ "#EXT-X-ENDLIST" ++ nl.
Proof.
  intros Hd.
  assert (Hc : (numSegments d 10 <= 0)%Z).
  { unfold numSegments. change (inject_Z 10) with 10.
    change 0%Z with (Qceiling 0). apply Qceiling_resp_le.
    assert (Hx : d == (d / 10) * 10) by field. lra. }
  assert (E : segments d 10 uri = []).
  { unfold segments. destruct (Z.to_nat (numSegments d 10)) eqn:En; [reflexivity|lia]. }
  split; [exact E|]. rewrite E. reflexivity.
Qed.

Lemma playlist_nonpositive_duration_witness :
  segments 0 10 (audio_uri "tTPk-fSx5gc") = [] /\
  playlist 10 (segments 0 10 (audio_uri "tTPk-fSx5gc")) = playlist_header 10 ++ "#EXT-X-ENDLIST" ++ nl.
Proof. apply playlist_nonpositive_duration. vm_compute. discriminate. Defined.

End DurationFacts.

(** ** Guards of the on-demand routes *)

Module GuardFacts.
Import JS Model.

Definition bad_id_response {V} (w : World V) : result response * World V :=
  (Ok (JsonError 500 "Invalid YouTube video ID"), w).

(** Every route of [src/index.js], [part_002] and [part_001] answers
    [500 Invalid YouTube video ID] for an identifier that fails
    [/^[a-zA-Z0-9_-]{11}$/], with no upstream call, no process and no cache
    change. [part_001]'s segment route checks the segment number first:
    when [parseInt(segNum)] is [NaN] or negative it answers
    [500 Invalid segment number] for any identifier, with no effect, and
    otherwise rejects a bad identifier like the other routes. *)
Theorem routes_reject_bad_input (up : Upstream) (v q sn : string) (osn : option string)
    (w : World Media) (w' : World Single.UrlInfo) :
  (valid_id v = false ->
   IndexJs.master_route up v w = bad_id_response w /\
   IndexJs.variant_route up v q w = bad_id_response w /\
   IndexJs.audio_route up v w = bad_id_response w /\
   IndexJs.segment_route up v osn q w = bad_id_response w /\
   IndexJs.asegment_route up v sn w = bad_id_response w /\
   Part002.master_route up v w = bad_id_response w /\
   Part002.variant_route up v q w = bad_id_response w /\
   Part002.audio_route up v w = bad_id_response w /\
   Part002.segment_route up v osn q w = bad_id_response w /\
   Part002.asegment_route up v sn w = bad_id_response w /\
   Part001.master_route up v w' = bad_id_response w' /\
   Part001.info_route up v w' = bad_id_response w' /\
   (forall z, parseInt sn = Fin z -> (0 <= z)%Z ->
      Part001.segment_route up v sn w' = bad_id_response w')) /\
  ((parseInt sn = NaN \/ exists z, parseInt sn = Fin z /\ (z < 0)%Z) ->
   Part001.segment_route up v sn w' = (Ok (JsonError 500 "Invalid segment number"), w')).
Proof.
  split.
  - intros Hv.
    unfold IndexJs.master_route, IndexJs.variant_route, IndexJs.audio_route,
      IndexJs.segment_route, IndexJs.asegment_route, IndexJs.getVideoFormats,
      Part002.master_route, Part002.variant_route, Part002.audio_route,
      Part002.segment_route, Part002.asegment_route, Part002.getVideoFormats,
      Part001.master_route, Part001.info_route, Part001.segment_route,
      catch500, bind; rewrite Hv.
    repeat split; try reflexivity.
    intros z Hz Hpos. rewrite Hz. apply Z.ltb_ge in Hpos. rewrite Hpos. reflexivity.
  - intros [H|(z & H & Hz)]; unfold Part001.segment_route, catch500; rewrite H; [reflexivity|].
    apply Z.ltb_lt in Hz. rewrite Hz. reflexivity.
Qed.

Lemma routes_reject_bad_input_witness :
  IndexJs.segment_route Fixtures.scenario_upstream "bad id!" None "720p" Fixtures.empty_world
    = bad_id_response Fixtures.empty_world /\
  Part001.segment_route Fixtures.scenario_upstream "bad id!" "3" Fixtures.empty_world
    = bad_id_response Fixtures.empty_world /\
  Part001.segment_route Fixtures.scenario_upstream "tTPk-fSx5gc" "-1" Fixtures.empty_world
    = (Ok (JsonError 500 "Invalid segment number"), Fixtures.empty_world).
Proof.
  destruct (routes_reject_bad_input Fixtures.scenario_upstream "bad id!" "720p" "0" None
              Fixtures.empty_world Fixtures.empty_world) as [H1 _].
  destruct (H1 eq_refl) as (_ & _ & _ & H2 & _).
  destruct (routes_reject_bad_input Fixtures.scenario_upstream "bad id!" "720p" "3" None
              Fixtures.empty_world Fixtures.empty_world) as [H3 _].
  destruct (H3 eq_refl) as (_ & _ & _ & _ & _ & _ & _ & _ & _ & _ & _ & _ & H4).
  destruct (routes_reject_bad_input Fixtures.scenario_upstream "tTPk-fSx5gc" "720p" "-1" None
              Fixtures.empty_world Fixtures.empty_world) as [_ H5].
  split; [exact H2|split].
  - apply (H4 3%Z); [reflexivity|lia].
  - apply H5. right. exists (-1)%Z. split; [reflexivity|lia].
Defined.

End GuardFacts.
(** ** Caches of [part_002] and of the single-quality servers *)

Module CacheFacts.
Import JS Model.

(** A format whose [url] is a string that [isUrlExpired] of [part_002]
    does not flag at [t]. *)
Definition url_fresh (t : Z) (f : Format) : Prop :=
  exists u, url f = Some u /\ Part002.isUrlExpired t u = false.

Lemma some_expired_all_fresh {V} (t : Z) (fs : list Format) (w : World V) :
  Forall (url_fresh t) fs -> Part002.some_expired t fs w = (Ok false, w).
Proof.
  induction 1 as [|f fs (u & Hu & He) _ IH]; [reflexivity|].
  cbn [Part002.some_expired]. unfold bind, check_expired. rewrite Hu. unfold ret.
  rewrite He. exact IH.
Qed.

Lemma some_expired_stop {V} (t : Z) (pre post : list Format) (f : Format) (w : World V) :
  Forall (url_fresh t) pre ->
  Part002.some_expired t (pre ++ f :: post) w =
  match url f with
  | Some u => if Part002.isUrlExpired t u then (Ok true, w) else Part002.some_expired t post w
  | None => (Err undefined_match, w)
  end.
Proof.
  induction 1 as [|g pre (u & Hu & He) _ IH].
  - cbn [app Part002.some_expired]. unfold bind, check_expired.
    destruct (url f) as [u|]; [|reflexivity]. unfold ret.
    destruct (Part002.isUrlExpired t u); reflexivity.
  - cbn [app Part002.some_expired]. unfold bind at 1, check_expired at 1. rewrite Hu.
    unfold ret at 1. rewrite He. exact IH.
Qed.

Lemma url_fresh_split (t : Z) (fs : list Format) :
  Forall (url_fresh t) fs \/
  exists pre f post, fs = (pre ++ f :: post)%list /\ Forall (url_fresh t) pre /\
    (url f = None \/ exists u, url f = Some u /\ Part002.isUrlExpired t u = true).
Proof.
  induction fs as [|f fs IH]; [left; constructor|].
  destruct (url f) as [u|] eqn:Hu.
  - destruct (Part002.isUrlExpired t u) eqn:He.
    + right. exists [], f, fs. split; [reflexivity|split; [constructor|right; eauto]].
    + destruct IH as [IH|(pre & g & post & -> & Hp & Hg)].
      * left. constructor; [exists u; auto|exact IH].
      * right. exists (f :: pre), g, post.
        split; [reflexivity|split; [constructor; [exists u; auto|exact Hp]|exact Hg]].
  - right. exists [], f, fs. split; [reflexivity|split; [constructor|left; exact Hu]].
Qed.

(** [getVideoFormats] of [part_002] (l.62-80), for a valid identifier.
    [cached.formats.some(f => isUrlExpired(f.url))] scans the formats in
    order: every format list either has only fresh URLs, or a first format
    that does not, whose URL is expired or missing. A live entry with only
    fresh URLs is answered with no upstream call; a live entry whose first
    non-fresh format has no URL makes [isUrlExpired(undefined)] throw, with
    no call and no change. A live entry whose first non-fresh URL is
    expired, or no live entry, leads to one call of the resolution API: on
    success the payload restricted to the formats with a (truthy) URL is
    answered and cached for 5 h, on failure [API request failed: <m>] is
    thrown. *)
Theorem part002_getVideoFormats_refresh (up : Upstream) (v : string) (w : World Media) :
  valid_id v = true ->
  (forall fs, Forall (url_fresh (now w)) fs \/
     exists pre f post, fs = (pre ++ f :: post)%list /\ Forall (url_fresh (now w)) pre /\
       (url f = None \/ exists u, url f = Some u /\ Part002.isUrlExpired (now w) u = true)) /\
  (forall c t, cache w !! (v ++ "_formats") = Some (c, t) -> (now w <= t)%Z ->
     Forall (url_fresh (now w)) (formats c) ->
     Part002.getVideoFormats up v w = (Ok c, w)) /\
  (forall c t pre f post, cache w !! (v ++ "_formats") = Some (c, t) -> (now w <= t)%Z ->
     formats c = (pre ++ f :: post)%list -> Forall (url_fresh (now w)) pre -> url f = None ->
     Part002.getVideoFormats up v w = (Err undefined_match, w)) /\
  ((forall c t, cache w !! (v ++ "_formats") = Some (c, t) -> (now w <= t)%Z ->
      exists pre f post u, formats c = (pre ++ f :: post)%list /\
        Forall (url_fresh (now w)) pre /\ url f = Some u /\ Part002.isUrlExpired (now w) u = true) ->
   let r := Part002.getVideoFormats up v w in
   calls (snd r) = (calls w ++ [watch_url v])%list /\ now (snd r) = now w /\
   spawned (snd r) = spawned w /\
   match up (length (calls w)) (watch_url v) with
   | Ok d =>
       fst r = Ok (with_formats d (valid_formats (formats d))) /\
       cache (snd r) !! (v ++ "_formats") =
         Some (with_formats d (valid_formats (formats d)), (now w + Part002.stdTTL * 1000)%Z)
   | Err m => fst r = Err ("API request failed: " ++ m)
   end).
Proof.
  intros Hv. unfold Part002.getVideoFormats. rewrite Hv. cbn [negb].
  unfold bind, cache_get, get_now.
  split; [intros fs; apply url_fresh_split|].
  split; [|split].
  - intros c t Hc Ht Hf. rewrite Hc. apply Z.leb_le in Ht. rewrite Ht.
    cbn [now]. rewrite (some_expired_all_fresh _ _ w Hf). reflexivity.
  - intros c t pre f post Hc Ht Hfs Hp Hu. rewrite Hc. apply Z.leb_le in Ht. rewrite Ht.
    cbn [now]. rewrite Hfs, (some_expired_stop _ pre post f w Hp), Hu.
    reflexivity.
  - intros Hl. cbv zeta.
    destruct (cache w !! (v ++ "_formats")) as [[c t]|] eqn:Hc.
    + destruct (now w <=? t)%Z eqn:Ht.
      * apply Z.leb_le in Ht. destruct (Hl c t eq_refl Ht) as (pre & f & post & u & Hfs & Hp & Hu & He).
        cbn [now]. rewrite Hfs, (some_expired_stop _ pre post f w Hp), Hu, He.
        unfold bind, fetchYouTubeData, cache_set, ret. cbn [cache calls now spawned].
        destruct (up (length (calls w)) (watch_url v)); cbn [fst snd cache calls now spawned negb];
          repeat split; try reflexivity. apply lookup_insert_eq.
      * unfold bind, fetchYouTubeData, cache_set, ret. cbn [cache calls now spawned].
        destruct (up (length (calls w)) (watch_url v)); cbn [fst snd cache calls now spawned negb];
          repeat split; try reflexivity. apply lookup_insert_eq.
    + unfold bind, fetchYouTubeData, cache_set, ret. cbn [cache calls now spawned].
      destruct (up (length (calls w)) (watch_url v)); cbn [fst snd cache calls now spawned negb];
        repeat split; try reflexivity. apply lookup_insert_eq.
Qed.

(** At an empty cache, a cache holding a stale URL, and a cache whose
    first format has no URL. *)
Lemma part002_getVideoFormats_refresh_witness :
  let w1 := mkWorld (<[ "tTPk-fSx5gc_formats" := (mkMedia "T" "" 125 [Fixtures.stale_720p], Fixtures.t0) ]> empty)
              [] [] Fixtures.t0 in
  let w2 := mkWorld (<[ "tTPk-fSx5gc_formats" :=
                (mkMedia "T" "" 125 [mkFormat "video_with_audio" "720p" "mp4" None; Fixtures.stale_720p], Fixtures.t0) ]> empty)
              [] [] Fixtures.t0 in
  fst (Part002.getVideoFormats Fixtures.scenario_upstream "tTPk-fSx5gc" Fixtures.empty_world)
    = Ok (with_formats (mkMedia "T" "" 125 [Fixtures.fresh_720p]) (valid_formats [Fixtures.fresh_720p])) /\
  calls (snd (Part002.getVideoFormats Fixtures.down_upstream "tTPk-fSx5gc" w1))
    = ([] ++ [watch_url "tTPk-fSx5gc"])%list /\
  fst (Part002.getVideoFormats Fixtures.down_upstream "tTPk-fSx5gc" w1)
    = Err ("API request failed: " ++ "Request failed with status code 503") /\
  Part002.getVideoFormats Fixtures.scenario_upstream "tTPk-fSx5gc" w2 = (Err undefined_match, w2).
Proof.
  intros w1 w2.
  destruct (part002_getVideoFormats_refresh Fixtures.scenario_upstream "tTPk-fSx5gc"
              Fixtures.empty_world) as (_ & _ & _ & H1); [reflexivity|].
  destruct H1 as (_ & _ & _ & Hr1); [intros c t E; discriminate E|].
  destruct (part002_getVideoFormats_refresh Fixtures.down_upstream "tTPk-fSx5gc" w1)
    as (_ & _ & _ & H2); [reflexivity|].
  destruct H2 as (Hc2 & _ & _ & Hr2).
  { intros c t E _. cbn in E. injection E as <- <-.
    exists [], Fixtures.stale_720p, [], "https://x/?expire=1".
    split; [reflexivity|split; [constructor|split; [reflexivity|vm_compute; reflexivity]]]. }
  destruct (part002_getVideoFormats_refresh Fixtures.scenario_upstream "tTPk-fSx5gc" w2)
    as (_ & _ & H3 & _); [reflexivity|].
  split; [exact (proj1 Hr1)|split; [exact Hc2|split; [exact Hr2|]]].
  apply (H3 (mkMedia "T" "" 125 [mkFormat "video_with_audio" "720p" "mp4" None; Fixtures.stale_720p])
           Fixtures.t0 [] (mkFormat "video_with_audio" "720p" "mp4" None) [Fixtures.stale_720p]);
    [reflexivity|cbn; lia|reflexivity|constructor|reflexivity].
Defined.

(** [getVideoUrl(videoId, quality)] of [part_000] (l.314-341) and
    [part_001] (l.61-92), for an identifier they accept. A live entry under
    [videoId_quality] whose URL is not expired is answered with no
    upstream call; a live entry without URL makes
    [isUrlExpired(undefined)] throw, with no call and no change.
    Otherwise the resolution API is called once: the selected format
    (quality token, else first combined one) is answered and cached for
    5 h under [videoId_quality]; without any combined format it throws
    [No suitable format found]; an API failure throws
    [API request failed: <m>]. *)
Theorem getVideoUrl_cache (validate : bool) (margin : Z) (up : Upstream)
    (v q : string) (w : World Single.UrlInfo) :
  negb validate || valid_id v = true ->
  (forall c t u, cache w !! (v ++ "_" ++ q) = Some (c, t) -> (now w <= t)%Z ->
     Single.iurl c = Some u -> isUrlExpired_m margin (now w) u = false ->
     Single.getVideoUrl_gen validate margin up v q w = (Ok c, w)) /\
  (forall c t, cache w !! (v ++ "_" ++ q) = Some (c, t) -> (now w <= t)%Z ->
     Single.iurl c = None ->
     Single.getVideoUrl_gen validate margin up v q w = (Err undefined_match, w)) /\
  ((forall c t, cache w !! (v ++ "_" ++ q) = Some (c, t) -> (now w <= t)%Z ->
      exists u, Single.iurl c = Some u /\ isUrlExpired_m margin (now w) u = true) ->
   let r := Single.getVideoUrl_gen validate margin up v q w in
   calls (snd r) = (calls w ++ [watch_url v])%list /\ now (snd r) = now w /\
   spawned (snd r) = spawned w /\
   match up (length (calls w)) (watch_url v) with
   | Ok d =>
       match Single.select_format q (formats d) with
       | Some f =>
           fst r = Ok (Single.mkUrlInfo (url f) (title d) (duration d)) /\
           cache (snd r) !! (v ++ "_" ++ q) =
             Some (Single.mkUrlInfo (url f) (title d) (duration d),
                   (now w + Single.stdTTL * 1000)%Z)
       | None => fst r = Err "No suitable format found"
       end
   | Err m => fst r = Err ("API request failed: " ++ m)
   end).
Proof.
  intros Hv.
  assert (E : Single.getVideoUrl_gen validate margin up v q =
    (cached <- cache_get (v ++ "_" ++ q) ;;
     t <- get_now ;;
     let fetch :=
       (data <- fetchYouTubeData up (watch_url v) ;;
        match Single.select_format q (formats data) with
        | None => throw "No suitable format found"
        | Some format =>
            let result := Single.mkUrlInfo (url format) (title data) (duration data) in
            _ <- cache_set Single.stdTTL (v ++ "_" ++ q) result ;;
            ret result
        end) in
     match cached with
     | Some c =>
         expired <- check_expired (isUrlExpired_m margin t) (Single.iurl c) ;;
         if negb expired then ret c else fetch
     | None => fetch
     end)).
  { unfold Single.getVideoUrl_gen. destruct validate, (valid_id v); try discriminate; reflexivity. }
  rewrite E. clear E. unfold bind, cache_get, get_now.
  split; [|split].
  - intros c t u Hc Ht Hu He. rewrite Hc. apply Z.leb_le in Ht. rewrite Ht.
    cbn [now]. unfold check_expired. rewrite Hu. unfold ret. rewrite He. reflexivity.
  - intros c t Hc Ht Hu. rewrite Hc. apply Z.leb_le in Ht. rewrite Ht.
    cbn [now]. unfold check_expired. rewrite Hu. reflexivity.
  - intros Hl. cbv zeta.
    destruct (cache w !! (v ++ "_" ++ q)) as [[c t]|] eqn:Hc.
    + destruct (now w <=? t)%Z eqn:Ht.
      * apply Z.leb_le in Ht. destruct (Hl c t eq_refl Ht) as (u & Hu & He).
        cbn [now]. unfold check_expired. rewrite Hu. unfold ret at 1. rewrite He.
        cbn [negb].
        unfold bind, fetchYouTubeData, cache_set, ret, throw. cbn [cache calls now spawned negb].
        destruct (up (length (calls w)) (watch_url v)) as [d|]; cbn [fst snd cache calls now spawned negb];
          [destruct (Single.select_format q (formats d))|];
          cbn [fst snd cache calls now spawned negb]; repeat split; try reflexivity.
        apply lookup_insert_eq.
      * unfold bind, fetchYouTubeData, cache_set, ret, throw. cbn [cache calls now spawned negb].
        destruct (up (length (calls w)) (watch_url v)) as [d|]; cbn [fst snd cache calls now spawned negb];
          [destruct (Single.select_format q (formats d))|];
          cbn [fst snd cache calls now spawned negb]; repeat split; try reflexivity.
        apply lookup_insert_eq.
    + unfold bind, fetchYouTubeData, cache_set, ret, throw. cbn [cache calls now spawned negb].
      destruct (up (length (calls w)) (watch_url v)) as [d|]; cbn [fst snd cache calls now spawned negb];
        [destruct (Single.select_format q (formats d))|];
        cbn [fst snd cache calls now spawned negb]; repeat split; try reflexivity.
      apply lookup_insert_eq.
Qed.

(** At an empty cache, and at a live entry cached without URL. *)
Lemma getVideoUrl_cache_witness :
  let w1 := mkWorld (<[ "tTPk-fSx5gc_720p" := (Single.mkUrlInfo None "T" 125, Fixtures.t0) ]> empty)
              [] [] Fixtures.t0 in
  calls (snd (Part001.getVideoUrl Fixtures.scenario_upstream "tTPk-fSx5gc" "1080p" Fixtures.empty_world))
    = ([] ++ [watch_url "tTPk-fSx5gc"])%list /\
  fst (Part001.getVideoUrl Fixtures.scenario_upstream "tTPk-fSx5gc" "1080p" Fixtures.empty_world)
    = Ok (Single.mkUrlInfo (url Fixtures.fresh_720p) "T" 125) /\
  Part000.getVideoUrl Fixtures.scenario_upstream "tTPk-fSx5gc" "720p" w1 = (Err undefined_match, w1).
Proof.
  intros w1.
  destruct (getVideoUrl_cache true margin_part001 Fixtures.scenario_upstream "tTPk-fSx5gc" "1080p"
              Fixtures.empty_world) as (_ & _ & H); [reflexivity|].
  destruct H as (Hc & _ & _ & Hr); [intros c t E; discriminate E|].
  destruct (getVideoUrl_cache false margin_part000 Fixtures.scenario_upstream "tTPk-fSx5gc" "720p"
              w1) as (_ & H2 & _); [reflexivity|].
  split; [exact Hc|split; [exact (proj1 Hr)|]].
  apply (H2 (Single.mkUrlInfo None "T" 125) Fixtures.t0); [reflexivity|cbn; lia|reflexivity].
Defined.

End CacheFacts.
(** ** Transcoder inputs of the multi-quality servers *)

Module InputFacts.
Import JS Model.

(** Every format of every cached entry has a (truthy) URL. *)
Definition cache_urls_nonempty (m : gmap string (Media * Z)) : Prop :=
  forall k c t, m !! k = Some (c, t) -> Forall (fun f => has_url f = true) (formats c).

(** What [-ss] receives for a segment number [sn]: [NaN] when
    [parseInt(sn)] is [NaN], and [parseInt(sn) * 10] whenever that product
    is a double held exactly (magnitude at most [2^53]). *)
Definition start_ok (sn : string) (st : jsnum) : Prop :=
  match parseInt sn with
  | NaN => st = NaN
  | Fin z => (Z.abs (z * 10) <= 2 ^ 53)%Z -> st = Fin (z * 10)
  end.

(** The processes spawned by one step: none, or one built by [mk] from a
    start [st] satisfying [ok] and a non-empty input URL [u]. *)
Definition spawns_input (mk : jsnum -> string -> list string) (ok : jsnum -> Prop)
    (sp sp' : list Proc) : Prop :=
  sp' = sp \/ exists st u, ok st /\ u <> EmptyString /\ sp' = (sp ++ [mkProc (mk st u)])%list.

Lemma has_url_some (f : Format) : has_url f = true -> exists u, url f = Some u /\ u <> EmptyString.
Proof.
  unfold has_url. destruct (url f) as [u|]; [|discriminate].
  intros H. exists u. split; [reflexivity|]. apply negb_true_iff, String.eqb_neq in H. exact H.
Qed.

Lemma valid_formats_nonempty (fs : list Format) :
  Forall (fun f => has_url f = true) (valid_formats fs).
Proof.
  apply List.Forall_forall. intros f Hf. unfold valid_formats in Hf.
  apply filter_In in Hf as [_ Hf]. exact Hf.
Qed.

Lemma cache_urls_nonempty_insert (m : gmap string (Media * Z)) (k : string) (c : Media) (t : Z) :
  cache_urls_nonempty m -> Forall (fun f => has_url f = true) (formats c) ->
  cache_urls_nonempty (<[k := (c, t)]> m).
Proof.
  intros Hm Hc k' c' t' H. destruct (decide (k = k')) as [<-|Hne].
  - rewrite lookup_insert_eq in H. injection H as <- _. exact Hc.
  - rewrite lookup_insert_ne in H by exact Hne. exact (Hm _ _ _ H).
Qed.

Lemma cache_urls_nonempty_delete (m : gmap string (Media * Z)) (k : string) :
  cache_urls_nonempty m -> cache_urls_nonempty (delete k m).
Proof.
  intros Hm k' c' t' H. destruct (decide (k = k')) as [<-|Hne].
  - rewrite lookup_delete_eq in H. discriminate.
  - rewrite lookup_delete_ne in H by exact Hne. exact (Hm _ _ _ H).
Qed.

Lemma with_valid_formats_nonempty (d : Media) :
  Forall (fun f => has_url f = true) (formats (with_formats d (valid_formats (formats d)))).
Proof. apply valid_formats_nonempty. Qed.

Lemma find_nonempty {p : Format -> bool} {fs : list Format} {f : Format} :
  Forall (fun f => has_url f = true) fs -> List.find p fs = Some f -> has_url f = true.
Proof.
  intros Hall Hf. apply find_some in Hf as [Hin _].
  rewrite List.Forall_forall in Hall. exact (Hall f Hin).
Qed.

Lemma some_expired_state {V} (t : Z) (fs : list Format) (w : World V) :
  exists r, Part002.some_expired t fs w = (r, w).
Proof.
  revert w. induction fs as [|f fs IH]; intros w; [eexists; reflexivity|].
  cbn [Part002.some_expired]. unfold bind, check_expired.
  destruct (url f) as [u|]; [|eexists; reflexivity].
  unfold ret. destruct (Part002.isUrlExpired t u); [eexists; reflexivity|apply IH].
Qed.

Lemma start_ok_mul (sn : string) : start_ok sn (mul (parseInt sn) 10).
Proof. unfold start_ok. destruct (parseInt sn); cbn [mul]; auto. Qed.

(** [getVideoFormats] of both servers keeps the cache invariant, spawns
    nothing and answers only formats with a URL. *)
Ltac inv_close Hinv :=
  repeat split; try discriminate; auto;
  try (intros ? E; injection E as <-; apply with_valid_formats_nonempty);
  repeat first [ apply cache_urls_nonempty_insert | apply cache_urls_nonempty_delete
               | exact Hinv | apply with_valid_formats_nonempty ].

Lemma index_getVideoFormats_inv (up : Upstream) (v : string) (force : bool)
    (w w' : World Media) (r : result Media) :
  cache_urls_nonempty (cache w) -> IndexJs.getVideoFormats up v force w = (r, w') ->
  cache_urls_nonempty (cache w') /\ spawned w' = spawned w /\ now w' = now w /\
  (forall d, r = Ok d -> Forall (fun f => has_url f = true) (formats d)).
Proof.
  intros Hinv H. unfold IndexJs.getVideoFormats in H.
  destruct (negb (valid_id v)).
  - unfold throw in H. injection H as <- <-. inv_close Hinv.
  - unfold bind, cache_get, ret, fetchYouTubeData, cache_set in H. cbv zeta in H.
    destruct force.
    + destruct (up (length (calls w)) (watch_url v)); injection H as <- <-;
        cbn [cache spawned now]; inv_close Hinv.
    + destruct (cache w !! (v ++ "_formats")) as [[c t]|] eqn:Hc; [destruct (now w <=? t)%Z|].
      * injection H as <- <-. inv_close Hinv. intros d E. injection E as <-. exact (Hinv _ _ _ Hc).
      * cbn [cache calls spawned now] in H.
        destruct (up (length (calls w)) (watch_url v)); injection H as <- <-;
          cbn [cache spawned now]; inv_close Hinv.
      * destruct (up (length (calls w)) (watch_url v)); injection H as <- <-;
          cbn [cache spawned now]; inv_close Hinv.
Qed.

Lemma part002_getVideoFormats_inv (up : Upstream) (v : string)
    (w w' : World Media) (r : result Media) :
  cache_urls_nonempty (cache w) -> Part002.getVideoFormats up v w = (r, w') ->
  cache_urls_nonempty (cache w') /\ spawned w' = spawned w /\ now w' = now w /\
  (forall d, r = Ok d -> Forall (fun f => has_url f = true) (formats d)).
Proof.
  intros Hinv H. unfold Part002.getVideoFormats in H.
  destruct (negb (valid_id v)).
  - unfold throw in H. injection H as <- <-. inv_close Hinv.
  - unfold bind at 1 2, cache_get, get_now in H. cbv zeta in H.
    destruct (cache w !! (v ++ "_formats")) as [[c t]|] eqn:Hc; [destruct (now w <=? t)%Z|].
    + cbn [now] in H. unfold bind at 1 in H.
      destruct (some_expired_state (now w) (formats c) w) as [[[]|e] Hse]; rewrite Hse in H.
      * unfold bind, ret, fetchYouTubeData, cache_set in H.
        destruct (up (length (calls w)) (watch_url v)); injection H as <- <-;
          cbn [cache spawned now]; inv_close Hinv.
      * unfold ret in H. injection H as <- <-. inv_close Hinv.
        intros d E. injection E as <-. exact (Hinv _ _ _ Hc).
      * injection H as <- <-. inv_close Hinv.
    + unfold bind, ret, fetchYouTubeData, cache_set in H. cbn [cache calls spawned now] in H.
      destruct (up (length (calls w)) (watch_url v)); injection H as <- <-;
        cbn [cache spawned now]; inv_close Hinv.
    + unfold bind, ret, fetchYouTubeData, cache_set in H.
      destruct (up (length (calls w)) (watch_url v)); injection H as <- <-;
        cbn [cache spawned now]; inv_close Hinv.
Qed.

Lemma catch500_state {V} (m : M V response) (w w' : World V) (r : result response) :
  catch500 m w = (r, w') -> exists r0, m w = (r0, w').
Proof.
  unfold catch500. destruct (m w) as [[a|e] w1]; intros H; injection H as _ <-; eauto.
Qed.

Lemma index_runFFmpeg_inv (up : Upstream) (v : string) (format : Format) (st : jsnum)
    (dur : Z) (a : bool) (w w' : World Media) (r : result unit) :
  cache_urls_nonempty (cache w) -> has_url format = true ->
  IndexJs.runFFmpeg up v format st dur a w = (r, w') ->
  cache_urls_nonempty (cache w') /\
  spawns_input (fun st' u => IndexJs.ffmpeg_args u st' dur a) (fun st' => st' = st)
    (spawned w) (spawned w').
Proof.
  intros Hinv Hf H. destruct (has_url_some format Hf) as (u & Hu & Hne).
  unfold IndexJs.runFFmpeg, bind, get_now, check_expired in H. rewrite Hu in H.
  unfold ret at 1 in H.
  destruct (IndexJs.isUrlExpired (now w) u).
  - destruct (IndexJs.getVideoFormats up v true w) as [[d|e] w1] eqn:Hg;
      destruct (index_getVideoFormats_inv up v true w w1 _ Hinv Hg) as (Hi1 & Hs1 & _ & Hd).
    + destruct (List.find (IndexJs.same_format format) (formats d)) as [f|] eqn:Hfd;
        unfold ret, spawn in H; injection H as _ <-; cbn [cache spawned];
        (split; [exact Hi1|right]).
      * destruct (has_url_some f (find_nonempty (Hd d eq_refl) Hfd)) as (u' & Hu' & Hne').
        exists st, u'. split; [reflexivity|split; [exact Hne'|]]. rewrite Hs1, Hu'. reflexivity.
      * exists st, u. split; [reflexivity|split; [exact Hne|]]. rewrite Hs1, Hu. reflexivity.
    + injection H as _ <-. split; [exact Hi1|left; exact Hs1].
  - unfold ret, spawn in H. injection H as _ <-. cbn [cache spawned].
    split; [exact Hinv|right]. exists st, u. split; [reflexivity|split; [exact Hne|]].
    rewrite Hu. reflexivity.
Qed.

Lemma part002_runFFmpeg_inv (f : Format) (st : jsnum) (dur : Z) (a : bool)
    (w w' : World Media) (r : result unit) :
  has_url f = true -> Part002.runFFmpeg (url f) st dur a w = (r, w') ->
  cache w' = cache w /\
  spawns_input (fun st' u => Part002.ffmpeg_args u st' dur a) (fun st' => st' = st)
    (spawned w) (spawned w').
Proof.
  intros Hf H. destruct (has_url_some f Hf) as (u & Hu & Hne).
  unfold Part002.runFFmpeg, spawn in H. injection H as _ <-.
  split; [reflexivity|right]. exists st, u. split; [reflexivity|split; [exact Hne|]].
  rewrite Hu. reflexivity.
Qed.

Lemma spawns_input_start (mk : jsnum -> string -> list string) (ok : jsnum -> Prop) (st : jsnum)
    (sp sp' : list Proc) :
  ok st -> spawns_input mk (fun st' => st' = st) sp sp' -> spawns_input mk ok sp sp'.
Proof.
  intros Hok [H|(st' & u & -> & Hu & H)]; [left; exact H|right].
  exists st, u. auto.
Qed.

(** On [src/index.js], starting from a cache whose formats all have a URL
    (the empty cache, for one), every route keeps that property. The
    manifest routes spawn nothing. A video segment request
    [segment<seg>.ts], as Express binds it, spawns at most one [ffmpeg],
    whose input URL is non-empty and whose start is [NaN]
    ([parseInt(undefined) * 10]). An audio segment request spawns at most
    one [ffmpeg], whose input URL is non-empty and whose start is [NaN]
    when [parseInt(segNum)] is, and [parseInt(segNum) * 10] when that is
    at most [2^53] in magnitude; this includes the URL of a forced refresh
    in [runFFmpeg]. *)
Theorem index_ffmpeg_input_nonempty (up : Upstream) (v sn seg q : string) (w : World Media) :
  cache_urls_nonempty (cache w) ->
  (forall m r w', IndexJs.segment_request up v seg = Some m -> m w = (r, w') ->
     cache_urls_nonempty (cache w') /\
     spawns_input (fun st u => IndexJs.ffmpeg_args u st 10 false) (fun st => st = NaN)
       (spawned w) (spawned w')) /\
  (forall r w', IndexJs.asegment_route up v sn w = (r, w') ->
     cache_urls_nonempty (cache w') /\
     spawns_input (fun st u => IndexJs.ffmpeg_args u st 10 true) (start_ok sn)
       (spawned w) (spawned w')) /\
  (forall r w', (IndexJs.master_route up v w = (r, w') \/ IndexJs.variant_route up v q w = (r, w')
                 \/ IndexJs.audio_route up v w = (r, w')) ->
     cache_urls_nonempty (cache w') /\ spawned w' = spawned w).
Proof.
  intros Hinv. split; [|split].
  - intros m r w' Hm H. unfold IndexJs.segment_request in Hm.
    destruct (segment_params seg) as [[c q']|]; [|discriminate Hm].
    injection Hm as <-.
    apply catch500_state in H as [r0 H]. cbv zeta in H. unfold bind in H.
    destruct (IndexJs.getVideoFormats up v false w) as [[d|e] w1] eqn:Hg;
      destruct (index_getVideoFormats_inv up v false w w1 _ Hinv Hg) as (Hi1 & Hs1 & _ & Hd).
    + destruct (find_quality q' (formats d)) as [f|] eqn:Hf.
      * destruct (IndexJs.runFFmpeg up v f (mul (parseInt (js_str None)) 10) 10 false w1)
          as [[[]|e] w2] eqn:Hr;
          injection H as _ <-;
          destruct (index_runFFmpeg_inv up v f _ 10 false w1 w2 _ Hi1 (find_nonempty (Hd d eq_refl) Hf) Hr)
            as [Hi2 Hs2]; (split; [exact Hi2|]); rewrite <- Hs1;
          exact (spawns_input_start _ _ _ _ _ eq_refl Hs2).
      * unfold throw in H. injection H as _ <-. split; [exact Hi1|left; exact Hs1].
    + injection H as _ <-. split; [exact Hi1|left; exact Hs1].
  - intros r w' H. apply catch500_state in H as [r0 H]. cbv zeta in H. unfold bind in H.
    destruct (IndexJs.getVideoFormats up v false w) as [[d|e] w1] eqn:Hg;
      destruct (index_getVideoFormats_inv up v false w w1 _ Hinv Hg) as (Hi1 & Hs1 & _ & Hd).
    + destruct (find_audio (formats d)) as [f|] eqn:Hf.
      * destruct (IndexJs.runFFmpeg up v f (mul (parseInt sn) 10) 10 true w1) as [[[]|e] w2] eqn:Hr;
          injection H as _ <-;
          destruct (index_runFFmpeg_inv up v f _ 10 true w1 w2 _ Hi1 (find_nonempty (Hd d eq_refl) Hf) Hr)
            as [Hi2 Hs2]; (split; [exact Hi2|]); rewrite <- Hs1;
          exact (spawns_input_start _ _ _ _ _ (start_ok_mul sn) Hs2).
      * unfold throw in H. injection H as _ <-. split; [exact Hi1|left; exact Hs1].
    + injection H as _ <-. split; [exact Hi1|left; exact Hs1].
  - intros r w' [H|[H|H]]; apply catch500_state in H as [r0 H]; unfold bind in H;
      destruct (IndexJs.getVideoFormats up v false w) as [[d|e] w1] eqn:Hg;
      destruct (index_getVideoFormats_inv up v false w w1 _ Hinv Hg) as (Hi1 & Hs1 & _ & _);
      unfold ret, throw in H;
      repeat match type of H with
             | context [match ?x with Some _ => _ | None => _ end] => destruct x
             end;
      injection H as _ <-; exact (conj Hi1 Hs1).
Qed.

Lemma empty_cache_urls_nonempty : cache_urls_nonempty (cache (@Fixtures.empty_world Media)).
Proof. intros k c t E. discriminate E. Qed.

(** At [segmenta720p.ts] and [asegment3.aac], with a video and an audio
    format. *)
Lemma index_ffmpeg_input_nonempty_witness :
  spawns_input (fun st u => IndexJs.ffmpeg_args u st 10 false) (fun st => st = NaN) []
    (spawned (snd (IndexJs.segment_route Fixtures.av_upstream "tTPk-fSx5gc" None "720p"
                     Fixtures.empty_world))) /\
  spawns_input (fun st u => IndexJs.ffmpeg_args u st 10 true) (start_ok "3") []
    (spawned (snd (IndexJs.asegment_route Fixtures.av_upstream "tTPk-fSx5gc" "3"
                     Fixtures.empty_world))).
Proof.
  destruct (index_ffmpeg_input_nonempty Fixtures.av_upstream "tTPk-fSx5gc" "3" "a720p" "720p"
              Fixtures.empty_world empty_cache_urls_nonempty) as [H1 [H2 _]].
  split.
  - exact (proj2 (H1 (IndexJs.segment_route Fixtures.av_upstream "tTPk-fSx5gc" None "720p")
                     _ _ eq_refl (surjective_pairing _))).
  - exact (proj2 (H2 _ _ (surjective_pairing _))).
Defined.

(** The same for [part_002] (where [runFFmpeg] does no refresh). *)
Theorem part002_ffmpeg_input_nonempty (up : Upstream) (v sn seg q : string) (w : World Media) :
  cache_urls_nonempty (cache w) ->
  (forall m r w', Part002.segment_request up v seg = Some m -> m w = (r, w') ->
     cache_urls_nonempty (cache w') /\
     spawns_input (fun st u => Part002.ffmpeg_args u st 10 false) (fun st => st = NaN)
       (spawned w) (spawned w')) /\
  (forall r w', Part002.asegment_route up v sn w = (r, w') ->
     cache_urls_nonempty (cache w') /\
     spawns_input (fun st u => Part002.ffmpeg_args u st 10 true) (start_ok sn)
       (spawned w) (spawned w')) /\
  (forall r w', (Part002.master_route up v w = (r, w') \/ Part002.variant_route up v q w = (r, w')
                 \/ Part002.audio_route up v w = (r, w')) ->
     cache_urls_nonempty (cache w') /\ spawned w' = spawned w).
Proof.
  intros Hinv. split; [|split].
  - intros m r w' Hm H. unfold Part002.segment_request in Hm.
    destruct (segment_params seg) as [[c q']|]; [|discriminate Hm].
    injection Hm as <-.
    apply catch500_state in H as [r0 H]. cbv zeta in H. unfold bind in H.
    destruct (Part002.getVideoFormats up v w) as [[d|e] w1] eqn:Hg;
      destruct (part002_getVideoFormats_inv up v w w1 _ Hinv Hg) as (Hi1 & Hs1 & _ & Hd).
    + destruct (find_quality q' (formats d)) as [f|] eqn:Hf.
      * destruct (Part002.runFFmpeg (url f) (mul (parseInt (js_str None)) 10) 10 false w1)
          as [[[]|e] w2] eqn:Hr;
          injection H as _ <-;
          destruct (part002_runFFmpeg_inv f _ 10 false w1 w2 _ (find_nonempty (Hd d eq_refl) Hf) Hr)
            as [Hi2 Hs2]; (split; [rewrite Hi2; exact Hi1|]); rewrite <- Hs1;
          exact (spawns_input_start _ _ _ _ _ eq_refl Hs2).
      * unfold throw in H. injection H as _ <-. split; [exact Hi1|left; exact Hs1].
    + injection H as _ <-. split; [exact Hi1|left; exact Hs1].
  - intros r w' H. apply catch500_state in H as [r0 H]. cbv zeta in H. unfold bind in H.
    destruct (Part002.getVideoFormats up v w) as [[d|e] w1] eqn:Hg;
      destruct (part002_getVideoFormats_inv up v w w1 _ Hinv Hg) as (Hi1 & Hs1 & _ & Hd).
    + destruct (find_audio (formats d)) as [f|] eqn:Hf.
      * destruct (Part002.runFFmpeg (url f) (mul (parseInt sn) 10) 10 true w1) as [[[]|e] w2] eqn:Hr;
          injection H as _ <-;
          destruct (part002_runFFmpeg_inv f _ 10 true w1 w2 _ (find_nonempty (Hd d eq_refl) Hf) Hr)
            as [Hi2 Hs2]; (split; [rewrite Hi2; exact Hi1|]); rewrite <- Hs1;
          exact (spawns_input_start _ _ _ _ _ (start_ok_mul sn) Hs2).
      * unfold throw in H. injection H as _ <-. split; [exact Hi1|left; exact Hs1].
    + injection H as _ <-. split; [exact Hi1|left; exact Hs1].
  - intros r w' [H|[H|H]]; apply catch500_state in H as [r0 H]; unfold bind in H;
      destruct (Part002.getVideoFormats up v w) as [[d|e] w1] eqn:Hg;
      destruct (part002_getVideoFormats_inv up v w w1 _ Hinv Hg) as (Hi1 & Hs1 & _ & _);
      unfold ret, throw in H;
      repeat match type of H with
             | context [match ?x with Some _ => _ | None => _ end] => destruct x
             end;
      injection H as _ <-; exact (conj Hi1 Hs1).
Qed.

Lemma part002_ffmpeg_input_nonempty_witness :
  spawns_input (fun st u => Part002.ffmpeg_args u st 10 false) (fun st => st = NaN) []
    (spawned (snd (Part002.segment_route Fixtures.av_upstream "tTPk-fSx5gc" None "720p"
                     Fixtures.empty_world))) /\
  spawns_input (fun st u => Part002.ffmpeg_args u st 10 true) (start_ok "3") []
    (spawned (snd (Part002.asegment_route Fixtures.av_upstream "tTPk-fSx5gc" "3"
                     Fixtures.empty_world))).
Proof.
  destruct (part002_ffmpeg_input_nonempty Fixtures.av_upstream "tTPk-fSx5gc" "3" "a720p" "720p"
              Fixtures.empty_world empty_cache_urls_nonempty) as [H1 [H2 _]].
  split.
  - exact (proj2 (H1 (Part002.segment_route Fixtures.av_upstream "tTPk-fSx5gc" None "720p")
                     _ _ eq_refl (surjective_pairing _))).
  - exact (proj2 (H2 _ _ (surjective_pairing _))).
Defined.

End InputFacts.

(** ** Payload check *)

Module PayloadFacts.
Import JS Model Payload.

Lemma js_or_nonempty (x : option string) (d : string) :
  d <> EmptyString -> js_or x d <> EmptyString.
Proof.
  intros Hd. destruct x as [s|]; cbn; [|exact Hd].
  destruct (String.eqb s "") eqn:E; [exact Hd|]. apply String.eqb_neq in E. exact E.
Qed.

(** [fetchYouTubeData] rejects a payload exactly when it has no [data],
    no [items] or a missing or empty [title]. An accepted payload keeps
    the title and the items one to one and in order, each format
    carrying a non-empty quality and extension ([unknown] by default). *)
Theorem to_media_spec (data : option Data) :
  (to_media data = None <->
     forall p, data = Some p -> pitems p = None \/ ptitle p = None \/ ptitle p = Some EmptyString) /\
  (forall m, to_media data = Some m ->
     exists p items, data = Some p /\ pitems p = Some items /\ ptitle p = Some (title m) /\
       title m <> EmptyString /\ formats m = map to_format items /\
       Forall (fun f => quality f <> EmptyString /\ extension f <> EmptyString) (formats m)).
Proof.
  split.
  - destruct data as [p|]; cbn.
    + destruct (pitems p) as [items|] eqn:Hi, (ptitle p) as [t|] eqn:Ht; split; intros H;
        try reflexivity;
        try (intros p' Hp; injection Hp as <-; rewrite Hi, Ht; auto; fail).
      * destruct (String.eqb t "") eqn:E; [|discriminate].
        apply String.eqb_eq in E. subst t. intros p' Hp. injection Hp as <-. auto.
      * destruct (H p eq_refl) as [E|[E|E]]; rewrite E in *; try discriminate.
        injection Ht as Ht'. subst t. reflexivity.
    + split; [intros _ p Hp; discriminate|reflexivity].
  - intros m H. destruct data as [p|]; [|discriminate]. cbn in H.
    destruct (pitems p) as [items|] eqn:Hi; [|discriminate].
    destruct (ptitle p) as [t|] eqn:Ht; [|discriminate].
    destruct (String.eqb t "") eqn:E; [discriminate|]. apply String.eqb_neq in E.
    injection H as <-. exists p, items. cbn.
    repeat split; try assumption; try reflexivity.
    apply Forall_map, List.Forall_forall. intros it _. cbn.
    split; apply js_or_nonempty; [discriminate|apply js_or_nonempty; discriminate].
Qed.

Lemma to_media_spec_witness :
  to_media (Some (mkData (Some "") "" 0 (Some []))) = None /\
  exists p items,
    Some (mkData (Some "T") "" 125 (Some [mkItem "audio" None (Some "") (Some "m4a") (Some "u")])) = Some p /\
    pitems p = Some items /\ ptitle p = Some "T" /\ "T" <> EmptyString /\
    [mkFormat "audio" "unknown" "m4a" (Some "u")] = map to_format items /\
    Forall (fun f => quality f <> EmptyString /\ extension f <> EmptyString)
           [mkFormat "audio" "unknown" "m4a" (Some "u")].
Proof.
  split.
  - apply (proj1 (to_media_spec (Some (mkData (Some "") "" 0 (Some []))))).
    intros p E. injection E as <-. right. right. reflexivity.
  - apply (proj2 (to_media_spec (Some (mkData (Some "T") "" 125
              (Some [mkItem "audio" None (Some "") (Some "m4a") (Some "u")]))))
             (mkMedia "T" "" 125 [mkFormat "audio" "unknown" "m4a" (Some "u")])).
    reflexivity.
Defined.

End PayloadFacts.
(** ** How Express serves the segment URIs of the variant playlists *)

Module SegmentFacts.
Import JS Model Manifest StringFacts NumberFacts Selection.

Lemma strip_prefix_char (c x : ascii) (s : string) :
  strip_prefix (String c EmptyString) (String x s) = if Ascii.eqb c x then Some s else None.
Proof. cbn. destruct (Ascii.eqb c x); reflexivity. Qed.

Lemma includes_char_app (a b : string) (c : ascii) :
  includes (a ++ b) (String c EmptyString) =
  includes a (String c EmptyString) || includes b (String c EmptyString).
Proof.
  induction a as [|x a IH]; [reflexivity|].
  change (String x a ++ b) with (String x (a ++ b)).
  rewrite (includes_unfold (String x (a ++ b))), (includes_unfold (String x a)).
  rewrite !strip_prefix_char. destruct (Ascii.eqb c x); [reflexivity|exact IH].
Qed.

Lemma all_digits_no_slash (s : string) : all_digits s = true -> includes s "/" = false.
Proof.
  induction s as [|c s IH]; intros H; [reflexivity|].
  cbn [all_digits] in H. apply andb_true_iff in H as [Hc Hs].
  rewrite includes_unfold, strip_prefix_char.
  destruct (Ascii.eqb "/" c) eqn:E; [|exact (IH Hs)].
  apply Ascii.eqb_eq in E. subst c. discriminate Hc.
Qed.

Lemma Z_to_string_nat (n : nat) :
  exists d r, Z_to_string (Z.of_nat n) = String d r /\ all_digits (String d r) = true.
Proof.
  destruct (Z_to_string_abs (Z.of_nat n)) as (ds & Heq & Hne & Hall & _).
  unfold Z_to_string. cbv zeta. rewrite Heq.
  assert (Hz : (Z.of_nat n <? 0)%Z = false) by (apply Z.ltb_ge; lia). rewrite Hz.
  destruct ds as [|d r]; [congruence|]. exists d, r. auto.
Qed.

(** A variant playlist of [src/index.js] or [part_002] for the token [q]
    lists segment [i] as [/stream/<id>/segment<seg>.ts] with
    [seg = String(i) + '_' + q]. Express hands the handler the quality
    parameter [String(i).slice(1) + '_' + q] (the first character going to
    [segNum_]), which contains [_]. So when no combined format of the
    resolved list has [_] in its label, every segment the playlist lists
    is answered [500 Format not available] by both servers. *)
Theorem variant_segment_uris_unserved (up : Upstream) (videoId q : string) (i : nat)
    (w w1 : World Media) (data : Media) :
  includes q "/" = false ->
  Forall (fun f => ftype f = "video_with_audio" -> includes (quality f) "_" = false) (formats data) ->
  let seg := Z_to_string (Z.of_nat i) ++ "_" ++ q in
  variant_uri videoId q i = "/stream/" ++ videoId ++ "/segment" ++ seg ++ ".ts" /\
  (exists c rest, segment_params seg = Some (c, rest) /\ includes rest "_" = true) /\
  (IndexJs.getVideoFormats up videoId false w = (Ok data, w1) ->
     option_map (fun m => fst (m w)) (IndexJs.segment_request up videoId seg)
       = Some (Ok (JsonError 500 "Format not available"))) /\
  (Part002.getVideoFormats up videoId w = (Ok data, w1) ->
     option_map (fun m => fst (m w)) (Part002.segment_request up videoId seg)
       = Some (Ok (JsonError 500 "Format not available"))).
Proof.
  intros Hq Hf seg.
  destruct (Z_to_string_nat i) as (d & r & Hi & Hd).
  assert (Hp : exists c rest, segment_params seg = Some (c, rest) /\ includes rest "_" = true).
  { unfold seg, segment_params. rewrite Hi.
    rewrite includes_char_app, all_digits_no_slash by exact Hd.
    change ("_" ++ q) with (String "_" EmptyString ++ q). rewrite includes_char_app, Hq.
    cbn [orb includes strip_prefix Ascii.eqb].
    change (String d r ++ "_" ++ q) with (String d (r ++ "_" ++ q)).
    assert (Hr : exists x y, r ++ "_" ++ q = String x y)
      by (destruct r as [|x y]; [exists "_"%char, q|exists x, (y ++ "_" ++ q)]; reflexivity).
    destruct Hr as (x & y & Hr). rewrite Hr.
    exists (String d EmptyString), (String x y). split; [reflexivity|].
    rewrite <- Hr. apply includes_spec. exists r, q. reflexivity. }
  assert (Hn : forall rest, includes rest "_" = true -> find_quality rest (formats data) = None).
  { intros rest Hrest. apply find_none_iff. intros f Hin.
    apply matches_quality_false. intros [Ht (a & b & Hl)].
    rewrite List.Forall_forall in Hf. specialize (Hf f Hin Ht).
    apply includes_spec in Hrest as (a' & b' & ->).
    assert (Hyes : includes (quality f) "_" = true).
    { apply includes_spec. exists (a ++ a'), (b' ++ b). rewrite Hl.
      rewrite <- !append_assoc_str. reflexivity. }
    congruence. }
  split; [|split; [exact Hp|split]].
  - unfold variant_uri, seg. rewrite <- !append_assoc_str. reflexivity.
  - intros Hg. destruct Hp as (c & rest & Hs & Hrest).
    exact (index_segment_request_none up videoId seg c rest w w1 data Hs Hg (Hn rest Hrest)).
  - intros Hg. destruct Hp as (c & rest & Hs & Hrest).
    exact (part002_segment_request_none up videoId seg c rest w w1 data Hs Hg (Hn rest Hrest)).
Qed.

(** The playlist of the spec's scenario lists [segment0_720p.ts]: Express
    binds [quality] to [_720p], which no label [720p] contains. *)
Lemma variant_segment_uris_unserved_witness :
  segment_params "0_720p" = Some ("0", "_720p") /\
  option_map (fun m => fst (m Fixtures.empty_world))
    (IndexJs.segment_request Fixtures.av_upstream "tTPk-fSx5gc" "0_720p")
    = Some (Ok (JsonError 500 "Format not available")) /\
  option_map (fun m => fst (m Fixtures.empty_world))
    (Part002.segment_request Fixtures.av_upstream "tTPk-fSx5gc" "0_720p")
    = Some (Ok (JsonError 500 "Format not available")).
Proof.
  assert (Hf : Forall (fun f => ftype f = "video_with_audio" -> includes (quality f) "_" = false)
                 [Fixtures.fresh_720p; Fixtures.fmt_audio_360p])
    by (constructor; [intros _; reflexivity|constructor; [intros _; reflexivity|constructor]]).
  destruct (variant_segment_uris_unserved Fixtures.av_upstream "tTPk-fSx5gc" "720p" 0
              Fixtures.empty_world
              (snd (IndexJs.getVideoFormats Fixtures.av_upstream "tTPk-fSx5gc" false Fixtures.empty_world))
              (mkMedia "T" "" 125 [Fixtures.fresh_720p; Fixtures.fmt_audio_360p]) eq_refl Hf)
    as (_ & _ & H1 & _).
  destruct (variant_segment_uris_unserved Fixtures.av_upstream "tTPk-fSx5gc" "720p" 0
              Fixtures.empty_world
              (snd (Part002.getVideoFormats Fixtures.av_upstream "tTPk-fSx5gc" Fixtures.empty_world))
              (mkMedia "T" "" 125 [Fixtures.fresh_720p; Fixtures.fmt_audio_360p]) eq_refl Hf)
    as (_ & _ & _ & H2).
  split; [reflexivity|split].
  - exact (H1 eq_refl).
  - exact (H2 eq_refl).
Defined.

End SegmentFacts.
